(** * claude-code-switch: the settings merger, the active-config resolver
      and the list / add / remove workflows

    A shallow embedding of the command-line tool [ccs]: the two JSON files it
    keeps under [~/.claude], the JavaScript operations it performs on the
    parsed documents, and the functions [saveSettingsPreservingHooks],
    [getCurrentConfig], [listAndSelectConfig], [addConfig] and
    [removeConfig].

    Conventions of the model.
    - A document is the value [JSON.parse] returns; what is written is the
      value [JSON.stringify] serialises.  A numeral is an integer ([Z]): the
      program only tests numbers for truthiness and strict equality.
    - A string is a Rocq [string], one character per code unit (code units
      below 256).
    - The keys of an object are kept in enumeration order, as an association
      list.
    - A property that evaluates to [undefined] is [None]. *)

From Stdlib Require Import List String Ascii ZArith Bool Arith Lia.
From Stdlib Require Import Permutation DecimalString DecimalNat FinFun.
Import ListNotations.
Local Open Scope string_scope.
Local Open Scope list_scope.

Set Warnings "-register-all".

(* ===================================================================== *)
(** ** JSON documents and JavaScript values                               *)
(* ===================================================================== *)

Inductive json : Type :=
| JNull
| JBool (b : bool)
| JNum (n : Z)
| JStr (s : string)
| JArr (items : list json)
| JObj (fields : list (string * json)).

(** The result of evaluating an expression: a JSON value or [undefined]. *)
Definition jsval : Type := option json.

Definition undefined : jsval := None.

Definition null : jsval := Some JNull.

(** What a [throw] carries: the [TypeError] of a property access on
    [null]/[undefined] or of a call of something that is not a function, the
    [Error('无效的配置格式')] of the merger, and the error [fs.writeFileSync]
    throws. *)
Inductive jserror : Type :=
| TypeError
| InvalidConfigFormat
| WriteFailed.

Inductive result (A : Type) : Type :=
| Ok (a : A)
| Throw (e : jserror).

Arguments Ok {A} a.
Arguments Throw {A} e.

Definition bind {A B : Type} (c : result A) (k : A -> result B) : result B :=
  match c with
  | Ok a => k a
  | Throw e => Throw e
  end.

Notation "x <- c ;; k" := (bind c (fun x => k))
  (at level 61, c at next level, right associativity).

(** [ToBoolean]: [undefined], [null], [false], [0] and [''] are falsy. *)
Definition truthy (v : jsval) : bool :=
  match v with
  | None => false
  | Some JNull => false
  | Some (JBool b) => b
  | Some (JNum n) => negb (n =? 0)%Z
  | Some (JStr s) => negb (s =? EmptyString)
  | Some (JArr _) => true
  | Some (JObj _) => true
  end.

(** [a && b]: [b] is evaluated only when [a] is truthy. *)
Definition js_and (a : jsval) (b : result jsval) : result jsval :=
  if truthy a then b else Ok a.

(** [a || b]. *)
Definition js_or (a b : jsval) : jsval :=
  if truthy a then a else b.

(** [a === b] for two values that do not come from the same object graph:
    primitives compare by value, objects and arrays by reference (and two
    parsed documents never share a reference). *)
Definition strict_eq (a b : jsval) : bool :=
  match a, b with
  | None, None => true
  | Some JNull, Some JNull => true
  | Some (JBool x), Some (JBool y) => Bool.eqb x y
  | Some (JNum x), Some (JNum y) => (x =? y)%Z
  | Some (JStr x), Some (JStr y) => (x =? y)
  | _, _ => false
  end.

(** Own-property lookup in an object. *)
Fixpoint assoc (k : string) (fields : list (string * json)) : jsval :=
  match fields with
  | [] => None
  | (k', v) :: rest => if (k' =? k) then Some v else assoc k rest
  end.

(** [v.k] for the property names the program reads ([name], [config], [env],
    [authToken], [baseUrl], [_configName], [ANTHROPIC_AUTH_TOKEN],
    [ANTHROPIC_BASE_URL]): none is an index or a built-in property, so a
    string, a number, a boolean or an array has no such property; reading a
    property of [null] or [undefined] throws. *)
Definition get_prop (v : jsval) (k : string) : result jsval :=
  match v with
  | None => Throw TypeError
  | Some JNull => Throw TypeError
  | Some (JObj fields) => Ok (assoc k fields)
  | Some _ => Ok None
  end.

(** [o[k] = v] on the fields of an object, for a defined [v]: an existing key
    keeps its place, a new key goes last. *)
Fixpoint put (k : string) (v : json) (fields : list (string * json))
  : list (string * json) :=
  match fields with
  | [] => [(k, v)]
  | (k', v') :: rest =>
      if (k' =? k) then (k', v) :: rest else (k', v') :: put k v rest
  end.

Definition drop (k : string) (fields : list (string * json))
  : list (string * json) :=
  filter (fun kv => negb (fst kv =? k)) fields.

(** [o[k] = v] as [JSON.stringify] will see it: a property whose value is
    [undefined] is not serialised, and reads as [undefined] like an absent
    one, so assigning [undefined] is the removal of the key. *)
Definition set_field (k : string) (v : jsval) (fields : list (string * json))
  : list (string * json) :=
  match v with
  | Some x => put k x fields
  | None => drop k fields
  end.

(** The object [currentSettings] while it is in memory: the parsed document
    and, when the document is an array, the named properties assigned to it
    (an array accepts them, and [JSON.stringify] does not emit them). *)
Record heapobj : Type := {
  content : json;
  named : list (string * json)
}.

Definition load (v : json) : heapobj := {| content := v; named := [] |}.

Definition stringify (o : heapobj) : json := content o.

Definition read_prop (o : heapobj) (k : string) : result jsval :=
  match content o with
  | JArr _ => Ok (assoc k (named o))
  | v => get_prop (Some v) k
  end.

(** [o.k = v]; the file is a CommonJS script without ['use strict'], where
    an assignment to a property of a number, a string or a boolean is
    ignored. *)
Definition write_prop (o : heapobj) (k : string) (v : jsval) : result heapobj :=
  match content o with
  | JNull => Throw TypeError
  | JObj fields =>
      Ok {| content := JObj (set_field k v fields); named := named o |}
  | JArr _ =>
      Ok {| content := content o; named := set_field k v (named o) |}
  | _ => Ok o
  end.

(** [o.holder.k = v]: the holder is reached through [o], so the update is
    seen in [o] at the holder's place.  An array holder takes the named
    property without serialising it; a primitive holder ignores it. *)
Definition write_nested (o : heapobj) (holder k : string) (v : jsval)
  : result heapobj :=
  h <- read_prop o holder ;;
  match h with
  | None => Throw TypeError
  | Some JNull => Throw TypeError
  | Some (JObj fields) => write_prop o holder (Some (JObj (set_field k v fields)))
  | Some _ => Ok o
  end.

(* ===================================================================== *)
(** ** The two files and the file-system calls                            *)
(* ===================================================================== *)

(** A file of the configuration directory: absent, present with text that
    [fs.readFileSync] or [JSON.parse] rejects (unreadable, truncated, not
    JSON), or holding a JSON document. *)
Inductive file : Type :=
| Missing
| Garbled
| Stored (doc : json).

(** How the next [fs.writeFileSync] goes.  The call opens the file with flag
    ['w'], which truncates it, and then writes the text: it can fail before
    the file is opened (no permission, read-only volume), leaving the file as
    it was, or after (disk full, I/O error), leaving the truncated file with
    the part of the text that was written. *)
Inductive write_fault : Type :=
| WriteOk
| OpenFails
| WriteFailsAfterOpen.

Record world : Type := {
  apiConfigsFile : file;       (* ~/.claude/apiConfigs.json *)
  settingsFile : file;         (* ~/.claude/settings.json *)
  fault : write_fault
}.

Definition writeFileSync (fl : write_fault) (doc : json) (old : file)
  : file * option jserror :=
  match fl with
  | WriteOk => (Stored doc, None)
  | OpenFails => (old, Some WriteFailed)
  | WriteFailsAfterOpen => (Garbled, Some WriteFailed)
  end.

(** How a command ends: it returns, or it prints the error and calls
    [process.exit(code)]. *)
Inductive outcome : Type :=
| Done
| Exit (code : Z) (e : jserror).

Definition readApiConfigs (w : world) : json :=
  match apiConfigsFile w with
  | Missing => JArr []
  | Garbled => JArr []
  | Stored doc => doc
  end.

Definition readSettings (w : world) : json :=
  match settingsFile w with
  | Missing => JObj [("env", JObj [])]
  | Garbled => JObj [("env", JObj [])]
  | Stored doc => doc
  end.

(** The world after one of the two files has been written, or damaged. *)
Definition with_settings (w : world) (f : file) : world :=
  {| apiConfigsFile := apiConfigsFile w; settingsFile := f; fault := fault w |}.

Definition with_apiConfigs (w : world) (f : file) : world :=
  {| apiConfigsFile := f; settingsFile := settingsFile w; fault := fault w |}.

Definition saveSettings (settings : json) (w : world) : world * outcome :=
  match writeFileSync (fault w) settings (settingsFile w) with
  | (f, None) => (with_settings w f, Done)
  | (f, Some e) => (with_settings w f, Exit 1 e)
  end.

Definition saveApiConfigs (apiConfigs : json) (w : world) : world * outcome :=
  match writeFileSync (fault w) apiConfigs (apiConfigsFile w) with
  | (f, None) => (with_apiConfigs w f, Done)
  | (f, Some e) => (with_apiConfigs w f, Exit 1 e)
  end.

(* ===================================================================== *)
(** ** The settings merger                                                *)
(* ===================================================================== *)

(** Lines 125-137: the credentials of the selected configuration, from
    [config.env] when it is there, else from the flat fields. *)
Definition extract_credentials (selectedConfig : jsval)
  : result (jsval * jsval) :=
  config <- get_prop selectedConfig "config" ;;
  nested <- js_and config (get_prop config "env") ;;
  if truthy nested then
    authToken <- get_prop nested "ANTHROPIC_AUTH_TOKEN" ;;
    baseUrl <- get_prop nested "ANTHROPIC_BASE_URL" ;;
    Ok (authToken, baseUrl)
  else
    flatToken <- get_prop selectedConfig "authToken" ;;
    flat <- js_and flatToken (get_prop selectedConfig "baseUrl") ;;
    if truthy flat then
      Ok (flatToken, flat)
    else
      Throw InvalidConfigFormat.

(** Lines 118-142: the document that is handed to [JSON.stringify]. *)
Definition merge_settings (selectedConfig : jsval) (parsed : json)
  : result json :=
  let currentSettings := load parsed in
  env <- read_prop currentSettings "env" ;;
  currentSettings <-
    (if negb (truthy env)
     then write_prop currentSettings "env" (Some (JObj []))
     else Ok currentSettings) ;;
  creds <- extract_credentials selectedConfig ;;
  name <- get_prop selectedConfig "name" ;;
  currentSettings <- write_prop currentSettings "_configName" name ;;
  currentSettings <-
    write_nested currentSettings "env" "ANTHROPIC_AUTH_TOKEN" (fst creds) ;;
  currentSettings <-
    write_nested currentSettings "env" "ANTHROPIC_BASE_URL" (snd creds) ;;
  Ok (stringify currentSettings).

Definition saveSettingsPreservingHooks (selectedConfig : jsval) (w : world)
  : world * outcome :=
  match merge_settings selectedConfig (readSettings w) with
  | Throw e => (w, Exit 1 e)
  | Ok doc =>
      match writeFileSync (fault w) doc (settingsFile w) with
      | (f, None) => (with_settings w f, Done)
      | (f, Some e) => (with_settings w f, Exit 1 e)
      end
  end.

(* ===================================================================== *)
(** ** The active-config resolver                                         *)
(* ===================================================================== *)

(** [Object.keys(v).length]: the own enumerable keys of an object, the
    indices of an array or of a string; a number or a boolean has none. *)
Definition object_keys_length (v : json) : result nat :=
  match v with
  | JNull => Throw TypeError
  | JObj fields => Ok (List.length fields)
  | JArr items => Ok (List.length items)
  | JStr s => Ok (String.length s)
  | JBool _ => Ok 0
  | JNum _ => Ok 0
  end.

(** [!settings || Object.keys(settings).length === 0] *)
Definition settings_is_empty (settings : json) : result bool :=
  if negb (truthy (Some settings)) then Ok true
  else n <- object_keys_length settings ;; Ok (n =? 0)%nat.

(** A document on which an array method ([find], [some], [reduce], [map],
    [push]) is called: anything but an array has no such method, and the
    call throws. *)
Definition as_array (v : json) : result (list json) :=
  match v with
  | JArr items => Ok items
  | _ => Throw TypeError
  end.

(** [Array.prototype.find]: the first element the callback accepts. *)
Fixpoint js_find (p : json -> result bool) (l : list json) : result jsval :=
  match l with
  | [] => Ok undefined
  | x :: rest => b <- p x ;; if b then Ok (Some x) else js_find p rest
  end.

(** [config => config.name === settings._configName] *)
Definition name_matches (configName : jsval) (config : json) : result bool :=
  n <- get_prop (Some config) "name" ;;
  Ok (strict_eq n configName).

(** The callback of the fallback search, lines 201-209. *)
Definition credentials_match (settings config : json) : result bool :=
  c <- get_prop (Some config) "config" ;;
  if negb (truthy c) then Ok false
  else
    e <- get_prop (Some settings) "env" ;;
    let currentEnv := js_or e (Some (JObj [])) in
    ce <- get_prop c "env" ;;
    let configEnv := js_or ce (Some (JObj [])) in
    url1 <- get_prop currentEnv "ANTHROPIC_BASE_URL" ;;
    url2 <- get_prop configEnv "ANTHROPIC_BASE_URL" ;;
    if strict_eq url1 url2 then
      token1 <- get_prop currentEnv "ANTHROPIC_AUTH_TOKEN" ;;
      token2 <- get_prop configEnv "ANTHROPIC_AUTH_TOKEN" ;;
      Ok (strict_eq token1 token2)
    else Ok false.

(** Lines 190-209: the two searches, once the settings are known not to be
    empty. *)
Definition match_config (settings apiConfigs : json) : result jsval :=
  configName <- get_prop (Some settings) "_configName" ;;
  matched <-
    (if truthy configName
     then l <- as_array apiConfigs ;; js_find (name_matches configName) l
     else Ok undefined) ;;
  if truthy matched then Ok matched
  else
    l <- as_array apiConfigs ;;
    found <- js_find (credentials_match settings) l ;;
    Ok (js_or found null).

Definition getCurrentConfig (w : world) : result jsval :=
  let settings := readSettings w in
  empty <- settings_is_empty settings ;;
  if empty then Ok null
  else match_config settings (readApiConfigs w).

(* ===================================================================== *)
(** ** Strings typed by the user                                          *)
(* ===================================================================== *)

(** White space and line terminators among the code units below 256. *)
Definition is_space (c : ascii) : bool :=
  let n := nat_of_ascii c in
  ((9 <=? n) && (n <=? 13) || (n =? 32) || (n =? 160))%nat.

Fixpoint trim_start (s : string) : string :=
  match s with
  | EmptyString => EmptyString
  | String c rest => if is_space c then trim_start rest else s
  end.

Fixpoint trim_end (s : string) : string :=
  match s with
  | EmptyString => EmptyString
  | String c rest =>
      match trim_end rest with
      | EmptyString => if is_space c then EmptyString else String c EmptyString
      | kept => String c kept
      end
  end.

(** [String.prototype.trim] *)
Definition trim (s : string) : string := trim_end (trim_start s).

(** [!s] for a string. *)
Definition is_empty (s : string) : bool := negb (truthy (Some (JStr s))).

Definition digit_of (c : ascii) : option Z :=
  let n := nat_of_ascii c in
  if ((48 <=? n) && (n <=? 57))%nat then Some (Z.of_nat (n - 48)) else None.

Fixpoint parse_digits (acc : option Z) (s : string) : option Z :=
  match s with
  | EmptyString => acc
  | String c rest =>
      match digit_of c with
      | Some d =>
          parse_digits
            (Some (10 * match acc with Some a => a | None => 0 end + d)%Z) rest
      | None => acc
      end
  end.

(** [parseInt(s, 10)]: leading white space, an optional sign, the longest
    run of decimal digits; [None] is [NaN]. *)
Definition parseInt (s : string) : option Z :=
  match trim_start s with
  | String "-"%char rest => option_map Z.opp (parse_digits None rest)
  | String "+"%char rest => parse_digits None rest
  | t => parse_digits None t
  end.

(* ===================================================================== *)
(** ** The list / select workflow                                         *)
(* ===================================================================== *)

(** [v.length] *)
Definition js_length (v : jsval) : result jsval :=
  match v with
  | None => Throw TypeError
  | Some JNull => Throw TypeError
  | Some (JStr s) => Ok (Some (JNum (Z.of_nat (String.length s))))
  | Some (JArr items) => Ok (Some (JNum (Z.of_nat (List.length items))))
  | Some (JObj fields) => Ok (assoc "length" fields)
  | Some _ => Ok undefined
  end.

(** The property reads of [apiConfigs.reduce((max, config) =>
    Math.max(max, config.name.length), 0)]; the maximum only pads the lines
    of the menu. *)
Fixpoint max_name_length (l : list json) : result unit :=
  match l with
  | [] => Ok tt
  | config :: rest =>
      name <- get_prop (Some config) "name" ;;
      _ <- js_length name ;;
      max_name_length rest
  end.

(** [currentConfig && config.name === currentConfig.name] *)
Definition is_active (currentConfig config : jsval) : result bool :=
  if truthy currentConfig then
    n <- get_prop config "name" ;;
    c <- get_prop currentConfig "name" ;;
    Ok (strict_eq n c)
  else Ok false.

(** [name.padEnd(...)]: only a string has the method. *)
Definition pad_end (name : jsval) : result unit :=
  match name with
  | Some (JStr _) => Ok tt
  | _ => Throw TypeError
  end.

Record choice : Type := {
  value : nat;         (* the index the choice stands for *)
  current : bool       (* whether the line carries the mark of the active one *)
}.

(** One line of the menu, lines 237-249 (and 678-690): what it reads, the
    index it returns and the mark; the text of the line is not modelled. *)
Definition menu_line (currentConfig : jsval) (index : nat) (config : json)
  : result choice :=
  isActive <- is_active currentConfig (Some config) ;;
  name <- get_prop (Some config) "name" ;;
  _ <- pad_end name ;;
  c <- get_prop (Some config) "config" ;;
  env <- get_prop c "env" ;;
  _ <- get_prop env "ANTHROPIC_AUTH_TOKEN" ;;
  _ <- get_prop env "ANTHROPIC_BASE_URL" ;;
  Ok {| value := index; current := isActive |}.

Fixpoint menu_choices (currentConfig : jsval) (index : nat) (l : list json)
  : result (list choice) :=
  match l with
  | [] => Ok []
  | config :: rest =>
      line <- menu_line currentConfig index config ;;
      lines <- menu_choices currentConfig (S index) rest ;;
      Ok (line :: lines)
  end.

(** What the user answers to the menu: one of the configurations, by its
    index, or the entry that asks for an ordinal to be typed. *)
Inductive menu_answer : Type :=
| Picked (index : nat)
| InputOrdinal.

Record list_script : Type := {
  menu : menu_answer;
  typed : string;          (* the line typed at the ordinal prompt *)
  confirmSwitch : bool;
  runClaude : bool
}.

(** How a workflow ends. *)
Inductive report : Type :=
| NoConfigs
| Crashed (e : jserror)        (* thrown outside every handler *)
| PromptFailed (e : jserror)   (* thrown in a handler, printed by [.catch] *)
| InvalidOrdinal
| AlreadyActive (selected : jsval)
| Cancelled
| Abandoned                    (* the user left a prompt unanswered *)
| Switched (launched : bool)
| Added (newConfig : json)
| Removed (selected : jsval) (wasActive : bool)
| Fatal (code : Z) (e : jserror).

Definition processSelectedConfig (selectedConfig : jsval) (s : list_script)
  (w : world) : world * report :=
  if confirmSwitch s then
    match saveSettingsPreservingHooks selectedConfig w with
    | (w', Exit code e) => (w', Fatal code e)
    | (w', Done) =>
        match
          (config <- get_prop selectedConfig "config" ;;
           env <- get_prop config "env" ;;
           _ <- get_prop env "ANTHROPIC_AUTH_TOKEN" ;;
           _ <- get_prop env "ANTHROPIC_BASE_URL" ;;
           get_prop config "model")
        with
        | Throw e => (w', Crashed e)
        | Ok _ => (w', Switched (runClaude s))
        end
    end
  else (w, Cancelled).

(** The handler of the menu's answer, lines 273-323. *)
Definition select_handler (apiConfigs : list json) (currentConfig : jsval)
  (s : list_script) (w : world) : world * report :=
  match menu s with
  | InputOrdinal =>
      match parseInt (typed s) with
      | None => (w, InvalidOrdinal)
      | Some index =>
          if ((index <? 1) || (index >? Z.of_nat (List.length apiConfigs)))%Z
          then (w, InvalidOrdinal)
          else
            let selectedConfig := nth_error apiConfigs (Z.to_nat (index - 1)) in
            match is_active currentConfig selectedConfig with
            | Throw e => (w, Crashed e)
            | Ok true => (w, AlreadyActive selectedConfig)
            | Ok false => processSelectedConfig selectedConfig s w
            end
      end
  | Picked selectedIndex =>
      let selectedConfig := nth_error apiConfigs selectedIndex in
      match is_active currentConfig selectedConfig with
      | Throw e => (w, PromptFailed e)
      | Ok true => (w, AlreadyActive selectedConfig)
      | Ok false => processSelectedConfig selectedConfig s w
      end
  end.

(** Lines 216-249: what is evaluated before the menu is shown. *)
Definition prepare_menu (w : world) : result (list json * jsval) :=
  currentConfig <- getCurrentConfig w ;;
  l <- as_array (readApiConfigs w) ;;
  _ <- max_name_length l ;;
  _ <- menu_choices currentConfig 0 l ;;
  Ok (l, currentConfig).

Definition listAndSelectConfig (s : list_script) (w : world) : world * report :=
  match js_length (Some (readApiConfigs w)) with
  | Throw e => (w, Crashed e)
  | Ok len =>
      if strict_eq len (Some (JNum 0)) then (w, NoConfigs)
      else
        match prepare_menu w with
        | Throw e => (w, Crashed e)
        | Ok (apiConfigs, currentConfig) =>
            select_handler apiConfigs currentConfig s w
        end
  end.

(* ===================================================================== *)
(** ** The add workflow                                                   *)
(* ===================================================================== *)

(** What a [validate] callback returns: [true], or the message shown before
    the question is asked again. *)
Inductive verdict : Type :=
| Accepted
| EmptyName
| NameTaken (name : string)
| EmptyBaseUrl
| EmptyAuthToken.

(** [Array.prototype.some] *)
Fixpoint js_some (p : json -> result bool) (l : list json) : result bool :=
  match l with
  | [] => Ok false
  | x :: rest => b <- p x ;; if b then Ok true else js_some p rest
  end.

(** The [validate] of the name question, lines 561-570. *)
Definition validate_name (w : world) (input : string) : result verdict :=
  if is_empty (trim input) then Ok EmptyName
  else
    apiConfigs <- as_array (readApiConfigs w) ;;
    taken <- js_some (name_matches (Some (JStr (trim input)))) apiConfigs ;;
    if taken then Ok (NameTaken (trim input)) else Ok Accepted.

Definition validate_baseUrl (input : string) : result verdict :=
  if is_empty (trim input) then Ok EmptyBaseUrl else Ok Accepted.

Definition validate_authToken (input : string) : result verdict :=
  if is_empty (trim input) then Ok EmptyAuthToken else Ok Accepted.

(** An input question with a [validate]: the lines the user types are tried
    in turn until one is accepted; nothing is answered when the user leaves
    before that. *)
Fixpoint ask (validate : string -> result verdict) (attempts : list string)
  : result (option string) :=
  match attempts with
  | [] => Ok None
  | line :: later =>
      v <- validate line ;;
      match v with
      | Accepted => Ok (Some line)
      | _ => ask validate later
      end
  end.

Record add_script : Type := {
  names : list string;
  baseUrls : list string;
  authTokens : list string;
  model : string;
  confirmAdd : bool
}.

(** Lines 603-621. *)
Definition new_config (name baseUrl authToken modelName : string) : json :=
  JObj
    [("name", JStr (trim name));
     ("config",
      JObj
        ([("env",
           JObj
             [("ANTHROPIC_AUTH_TOKEN", JStr (trim authToken));
              ("ANTHROPIC_BASE_URL", JStr (trim baseUrl));
              ("CLAUDE_CODE_DISABLE_NONESSENTIAL_TRAFFIC", JStr "1")]);
          ("permissions", JObj [("allow", JArr []); ("deny", JArr [])])]
         ++ (if is_empty (trim modelName) then []
             else [("model", JStr (trim modelName))])))].

(** The four questions, lines 556-600. *)
Definition add_answers (s : add_script) (w : world)
  : result (option (string * string * string)) :=
  name <- ask (validate_name w) (names s) ;;
  match name with
  | None => Ok None
  | Some name =>
      baseUrl <- ask validate_baseUrl (baseUrls s) ;;
      match baseUrl with
      | None => Ok None
      | Some baseUrl =>
          authToken <- ask validate_authToken (authTokens s) ;;
          match authToken with
          | None => Ok None
          | Some authToken => Ok (Some (name, baseUrl, authToken))
          end
      end
  end.

Definition addConfig (s : add_script) (w : world) : world * report :=
  match add_answers s w with
  | Throw e => (w, PromptFailed e)
  | Ok None => (w, Abandoned)
  | Ok (Some (name, baseUrl, authToken)) =>
      let newConfig := new_config name baseUrl authToken (model s) in
      if confirmAdd s then
        match as_array (readApiConfigs w) with
        | Throw e => (w, Crashed e)
        | Ok apiConfigs =>
            match saveApiConfigs (JArr (apiConfigs ++ [newConfig])) w with
            | (w', Exit code e) => (w', Fatal code e)
            | (w', Done) => (w', Added newConfig)
            end
        end
      else (w, Cancelled)
  end.

(* ===================================================================== *)
(** ** The remove workflow                                                *)
(* ===================================================================== *)

Record remove_script : Type := {
  pick : nat;              (* the index of the line chosen in the menu *)
  confirmRemove : bool
}.

(** [a.splice(start, 1)] for [start >= 0]: what is left in [a]. *)
Definition splice1 (start : nat) (a : list json) : list json :=
  firstn start a ++ skipn (S start) a.

(** The handler of the menu's answer, lines 705-747. *)
Definition remove_handler (apiConfigs : list json) (currentConfig : jsval)
  (s : remove_script) (w : world) : world * report :=
  let selectedIndex := pick s in
  let selectedConfig := nth_error apiConfigs selectedIndex in
  match is_active currentConfig selectedConfig with
  | Throw e => (w, PromptFailed e)
  | Ok isCurrentConfig =>
      if confirmRemove s then
        match saveApiConfigs (JArr (splice1 selectedIndex apiConfigs)) w with
        | (w', Exit code e) => (w', Fatal code e)
        | (w', Done) =>
            match get_prop selectedConfig "name" with
            | Throw e => (w', Crashed e)
            | Ok _ => (w', Removed selectedConfig isCurrentConfig)
            end
        end
      else (w, Cancelled)
  end.

Definition removeConfig (s : remove_script) (w : world) : world * report :=
  match js_length (Some (readApiConfigs w)) with
  | Throw e => (w, Crashed e)
  | Ok len =>
      if strict_eq len (Some (JNum 0)) then (w, NoConfigs)
      else
        match prepare_menu w with
        | Throw e => (w, Crashed e)
        | Ok (apiConfigs, currentConfig) =>
            remove_handler apiConfigs currentConfig s w
        end
  end.

(** The entries of an object whose key is none of [ks], in their order. *)
Definition without (ks : list string) (fields : list (string * json))
  : list (string * json) :=
  filter (fun kv => negb (existsb (String.eqb (fst kv)) ks)) fields.

(** The fields of a value that is an object; any other value has none. *)
Definition fields_of (v : jsval) : list (string * json) :=
  match v with
  | Some (JObj fields) => fields
  | _ => []
  end.

(** The managed fields: [_configName] at the top level, whose sibling [env]
    holds the two credentials. *)
Definition managed_top : list string := ["_configName"; "env"].

Definition managed_env : list string :=
  ["ANTHROPIC_AUTH_TOKEN"; "ANTHROPIC_BASE_URL"].

(** What a write must keep of a settings document: every top-level entry
    other than the managed ones, with its value and in its place; every
    entry of [env] other than the two credentials, with its value and in its
    place; and an [env] that holds a non-empty string, a non-zero number,
    [true] or an array as it is. *)
Record preserved (before after : list (string * json)) : Prop := {
  kept_top :
    without managed_top after = without managed_top before;
  kept_env :
    without managed_env (fields_of (assoc "env" after)) =
    without managed_env (fields_of (assoc "env" before));
  kept_holder :
    truthy (assoc "env" before) = true ->
    (forall efs, assoc "env" before <> Some (JObj efs)) ->
    assoc "env" after = assoc "env" before
}.

(* ===================================================================== *)
(** ** Notions the statements use                                         *)
(* ===================================================================== *)

(** [v.k1.k2...] read safely: [undefined] as soon as a step has nothing to
    read from. *)
Fixpoint path (v : jsval) (ks : list string) : jsval :=
  match ks with
  | [] => v
  | k :: later =>
      match v with
      | Some (JObj fields) => path (assoc k fields) later
      | _ => None
      end
  end.

(** The credentials a configuration carries in the nested shape and in the
    flat shape, as (authToken, baseUrl). *)
Definition nested_credentials (C : json) : jsval * jsval :=
  (path (Some C) ["config"; "env"; "ANTHROPIC_AUTH_TOKEN"],
   path (Some C) ["config"; "env"; "ANTHROPIC_BASE_URL"]).

Definition flat_credentials (C : json) : jsval * jsval :=
  (path (Some C) ["authToken"], path (Some C) ["baseUrl"]).

(** A shape yields both values. *)
Definition yields_both (creds : jsval * jsval) : bool :=
  truthy (fst creds) && truthy (snd creds).

(** A computation that can only fail with a [TypeError]. *)
Definition only_type_error {A : Type} (r : result A) : Prop :=
  forall e, r = Throw e -> e = TypeError.

(** The file can be parsed. *)
Definition holds_json (f : file) : bool :=
  match f with
  | Stored _ => true
  | _ => false
  end.

(** A configuration matches a settings document by name, by value. *)
Definition name_equal (settings c : json) : bool :=
  truthy (path (Some settings) ["_configName"]) &&
  strict_eq (path (Some c) ["name"]) (path (Some settings) ["_configName"]).

Definition value_equal (settings c : json) : bool :=
  strict_eq (path (Some settings) ["env"; "ANTHROPIC_BASE_URL"])
            (path (Some c) ["config"; "env"; "ANTHROPIC_BASE_URL"]) &&
  strict_eq (path (Some settings) ["env"; "ANTHROPIC_AUTH_TOKEN"])
            (path (Some c) ["config"; "env"; "ANTHROPIC_AUTH_TOKEN"]).

(** The entry of the list that a script of the list workflow selects: the
    line picked in the menu, or the entry whose ordinal is typed. *)
Inductive selects (l : list json) (s : list_script) (sel : json) : Prop :=
| by_line (i : nat) :
    menu s = Picked i -> nth_error l i = Some sel -> selects l s sel
| by_ordinal (n : Z) :
    menu s = InputOrdinal ->
    parseInt (typed s) = Some n ->
    (1 <= n <= Z.of_nat (List.length l))%Z ->
    nth_error l (Z.to_nat (n - 1)) = Some sel ->
    selects l s sel.

(** A value from which a property can be read. *)
Definition defined (v : jsval) : bool :=
  match v with
  | None => false
  | Some JNull => false
  | Some _ => true
  end.

(** An entry the menus can display: its name is a string and it has a
    [config.env]. *)
Definition displayable (c : json) : bool :=
  match path (Some c) ["name"] with
  | Some (JStr _) => true
  | _ => false
  end
  && defined (path (Some c) ["config"])
  && defined (path (Some c) ["config"; "env"]).

(* ===================================================================== *)
(** ** Sample documents                                                   *)
(* ===================================================================== *)

Definition nested_config (name token url : string) : json :=
  JObj [("name", JStr name);
        ("config",
         JObj [("env", JObj [("ANTHROPIC_AUTH_TOKEN", JStr token);
                             ("ANTHROPIC_BASE_URL", JStr url)])])].

Definition configA : json := nested_config "A" "sk-aaaa" "https://x".

Definition configB : json := nested_config "B" "sk-bbbb" "https://y".

(** A configuration in the flat shape. *)
Definition configFlat : json :=
  JObj [("name", JStr "F"); ("authToken", JStr "sk-ffff");
        ("baseUrl", JStr "https://f")].

(** A configuration whose [config.env] holds no credentials. *)
Definition configHollow : json :=
  JObj [("name", JStr "H"); ("config", JObj [("env", JObj [])])].

Definition settingsA : list (string * json) :=
  [("model", JStr "opus");
   ("_configName", JStr "A");
   ("env", JObj [("ANTHROPIC_AUTH_TOKEN", JStr "sk-aaaa");
                 ("DISABLE_TELEMETRY", JStr "1");
                 ("ANTHROPIC_BASE_URL", JStr "https://x")]);
   ("hooks", JObj [("x", JNum 1)])].

(** Settings that name B and carry the credentials of A. *)
Definition settingsStale : list (string * json) :=
  [("_configName", JStr "B");
   ("env", JObj [("ANTHROPIC_BASE_URL", JStr "https://x");
                 ("ANTHROPIC_AUTH_TOKEN", JStr "sk-aaaa")])].

(** What the settings of A become when B is selected. *)
Definition settingsB : list (string * json) :=
  [("model", JStr "opus");
   ("_configName", JStr "B");
   ("env", JObj [("ANTHROPIC_AUTH_TOKEN", JStr "sk-bbbb");
                 ("DISABLE_TELEMETRY", JStr "1");
                 ("ANTHROPIC_BASE_URL", JStr "https://y")]);
   ("hooks", JObj [("x", JNum 1)])].

Definition sample_world (configs : list json) (settings : list (string * json))
  (fl : write_fault) : world :=
  {| apiConfigsFile := Stored (JArr configs);
     settingsFile := Stored (JObj settings);
     fault := fl |}.

(** The user removes the second entry and confirms. *)
Definition remove_second : remove_script :=
  {| pick := 1; confirmRemove := true |}.

(** The user takes the first line of the menu; the user types an ordinal. *)
Definition take_first_line : list_script :=
  {| menu := Picked 0; typed := EmptyString; confirmSwitch := true;
     runClaude := false |}.

Definition type_ordinal (text : string) : list_script :=
  {| menu := InputOrdinal; typed := text; confirmSwitch := true;
     runClaude := false |}.

(** The user tries two names for a new configuration, then gives up. *)
Definition try_names (first second : string) : add_script :=
  {| names := [first; second]; baseUrls := ["https://z"];
     authTokens := ["sk-zzzz"]; model := EmptyString; confirmAdd := true |}.

(* ===================================================================== *)
(** ** Deep comparison                                                    *)
(* ===================================================================== *)

(** A non-negative integer as [String(n)] writes it. *)
Definition decimal (n : nat) : string :=
  NilEmpty.string_of_uint (Nat.to_uint n).

(** The elements of an array under their index keys. *)
Fixpoint indexed (i : nat) (items : list json) : list (string * json) :=
  match items with
  | [] => []
  | v :: rest => (decimal i, v) :: indexed (S i) rest
  end.

(** The own enumerable properties of an object or of an array, in the order
    of [Object.keys]. *)
Definition own_entries (v : json) : list (string * json) :=
  match v with
  | JObj fields => fields
  | JArr items => indexed 0 items
  | _ => []
  end.

(** [keys.includes(key)] *)
Definition has_key (key : string) (entries : list (string * json)) : bool :=
  existsb (fun kv => fst kv =? key) entries.

(** Lines 158-175, for two values that share no object (two parsed
    documents, or parts of them): on anything but two objects or arrays the
    answer is that of [===]; on two of them, the keys are counted and every
    key of the first is looked up in the second.  The keys of an object are
    distinct, as [JSON.parse] leaves them. *)
Fixpoint deepEqual (obj1 obj2 : json) : bool :=
  match obj1 with
  | JObj fields =>
      match obj2 with
      | JObj _ | JArr _ =>
          (List.length fields =? List.length (own_entries obj2))%nat &&
          (fix each (l : list (string * json)) : bool :=
             match l with
             | [] => true
             | (key, v) :: rest =>
                 has_key key (own_entries obj2) &&
                 match assoc key (own_entries obj2) with
                 | Some v2 => deepEqual v v2
                 | None => false
                 end &&
                 each rest
             end) fields
      | _ => false
      end
  | JArr items =>
      match obj2 with
      | JObj _ | JArr _ =>
          (List.length items =? List.length (own_entries obj2))%nat &&
          (fix each (i : nat) (l : list json) : bool :=
             match l with
             | [] => true
             | v :: rest =>
                 has_key (decimal i) (own_entries obj2) &&
                 match assoc (decimal i) (own_entries obj2) with
                 | Some v2 => deepEqual v v2
                 | None => false
                 end &&
                 each (S i) rest
             end) 0 items
      | _ => false
      end
  | _ => strict_eq (Some obj1) (Some obj2)
  end.

(** [typeof v === 'object'] for a value that is not [null]. *)
Definition is_container (v : json) : bool :=
  match v with
  | JObj _ => true
  | JArr _ => true
  | _ => false
  end.

(** One turn of the loop of [deepEqual]: the key is among the keys of the
    second value and the two values under it are deeply equal. *)
Definition entry_found (entries2 : list (string * json))
  (kv : string * json) : bool :=
  has_key (fst kv) entries2 &&
  match assoc (fst kv) entries2 with
  | Some v2 => deepEqual (snd kv) v2
  | None => false
  end.

(** A document as [JSON.parse] builds it: no object has a key twice. *)
Inductive well_formed : json -> Prop :=
| wf_null : well_formed JNull
| wf_bool (b : bool) : well_formed (JBool b)
| wf_num (n : Z) : well_formed (JNum n)
| wf_str (s : string) : well_formed (JStr s)
| wf_arr (items : list json) :
    Forall well_formed items -> well_formed (JArr items)
| wf_obj (fields : list (string * json)) :
    NoDup (map fst fields) ->
    Forall (fun kv => well_formed (snd kv)) fields ->
    well_formed (JObj fields).

(** The fields the merger hands to [JSON.stringify], written out: [env] is
    made when there is none, the name is assigned, and the two credentials
    are assigned in [env] when [env] is an object. *)
Definition merged_fields (name : jsval) (creds : jsval * jsval)
  (fields : list (string * json)) : list (string * json) :=
  let held :=
    if truthy (assoc "env" fields) then fields
    else put "env" (JObj []) fields in
  let named := set_field "_configName" name held in
  match assoc "env" held with
  | Some (JObj efs) =>
      put "env"
        (JObj (set_field "ANTHROPIC_BASE_URL" (snd creds)
                 (set_field "ANTHROPIC_AUTH_TOKEN" (fst creds) efs)))
        named
  | _ => named
  end.

(** Settings that name an entry that is gone and carry the credentials
    of B. *)
Definition settingsGone : list (string * json) :=
  [("_configName", JStr "gone");
   ("env", JObj [("ANTHROPIC_AUTH_TOKEN", JStr "sk-bbbb");
                 ("ANTHROPIC_BASE_URL", JStr "https://y")])].

(** The user adds a configuration: a taken name first, then a new one with
    spaces around it; an empty URL first, then a real one. *)
Definition add_third : add_script :=
  {| names := ["A"; " C "]; baseUrls := [" "; "https://c"];
     authTokens := ["sk-cccc"]; model := EmptyString; confirmAdd := true |}.

Definition configC : json :=
  new_config "C" "https://c" "sk-cccc" EmptyString.

(** The text of the ordinal shown on the line of an entry:
    [`${index + 1}`]. *)
Definition ordinal_text (index : nat) : string := decimal (index + 1).

(** No two entries of a list carry the same name. *)
Definition names_distinct (l : list json) : Prop :=
  ForallOrdPairs
    (fun c d =>
       strict_eq (path (Some c) ["name"]) (path (Some d) ["name"]) = false) l.

(* ===================================================================== *)
(** * Properties                                                          *)
(* ===================================================================== *)

(** ** Association lists *)

Section Fields.

Variables (k : string) (fields : list (string * json)).

Lemma assoc_put_same (v : json) : assoc k (put k v fields) = Some v.
Proof.
  induction fields as [|[k' v'] rest IH]; simpl.
  - now rewrite String.eqb_refl.
  - destruct (k' =? k) eqn:E; simpl; rewrite E; auto.
Qed.

Lemma assoc_put_other (k0 : string) (v : json) :
  k0 <> k -> assoc k0 (put k v fields) = assoc k0 fields.
Proof.
  intros Hne. induction fields as [|[k' v'] rest IH]; simpl.
  - destruct (k =? k0) eqn:E; auto.
    apply String.eqb_eq in E. congruence.
  - destruct (k' =? k) eqn:E; simpl.
    + apply String.eqb_eq in E. subst k'.
      destruct (k =? k0) eqn:E0; auto.
      apply String.eqb_eq in E0. congruence.
    + now rewrite IH.
Qed.

Lemma assoc_drop_same : assoc k (drop k fields) = None.
Proof.
  unfold drop. induction fields as [|[k' v'] rest IH]; simpl; auto.
  destruct (k' =? k) eqn:E; simpl; auto. now rewrite E.
Qed.

Lemma assoc_drop_other (k0 : string) :
  k0 <> k -> assoc k0 (drop k fields) = assoc k0 fields.
Proof.
  intros Hne. unfold drop.
  induction fields as [|[k' v'] rest IH]; simpl; auto.
  destruct (k' =? k) eqn:E; simpl.
  - apply String.eqb_eq in E. subst k'.
    destruct (k =? k0) eqn:E0; auto.
    apply String.eqb_eq in E0. congruence.
  - now rewrite IH.
Qed.

Lemma assoc_set_field_other (k0 : string) (v : jsval) :
  k0 <> k -> assoc k0 (set_field k v fields) = assoc k0 fields.
Proof.
  destruct v; simpl; auto using assoc_put_other, assoc_drop_other.
Qed.

Lemma assoc_set_field_same (v : jsval) : assoc k (set_field k v fields) = v.
Proof.
  destruct v; simpl; auto using assoc_put_same, assoc_drop_same.
Qed.

Lemma without_put (ks : list string) (v : json) :
  In k ks -> without ks (put k v fields) = without ks fields.
Proof.
  intros Hin.
  assert (Hk : existsb (String.eqb k) ks = true).
  { apply existsb_exists. exists k. split; auto. apply String.eqb_refl. }
  unfold without. induction fields as [|[k' v'] rest IH]; simpl.
  - now rewrite Hk.
  - destruct (k' =? k) eqn:E; simpl.
    + apply String.eqb_eq in E. subst k'. now rewrite Hk.
    + now rewrite IH.
Qed.

Lemma without_drop (ks : list string) :
  In k ks -> without ks (drop k fields) = without ks fields.
Proof.
  intros Hin.
  assert (Hk : existsb (String.eqb k) ks = true).
  { apply existsb_exists. exists k. split; auto. apply String.eqb_refl. }
  unfold without, drop. induction fields as [|[k' v'] rest IH]; simpl; auto.
  destruct (k' =? k) eqn:E; simpl.
  - apply String.eqb_eq in E. subst k'. now rewrite Hk.
  - now rewrite IH.
Qed.

Lemma without_set_field (ks : list string) (v : jsval) :
  In k ks -> without ks (set_field k v fields) = without ks fields.
Proof.
  destruct v; simpl; auto using without_put, without_drop.
Qed.

End Fields.

Lemma assoc_without (ks : list string) (k : string)
  (fields : list (string * json)) :
  ~ In k ks -> assoc k (without ks fields) = assoc k fields.
Proof.
  intros Hnot. unfold without.
  induction fields as [|[k' v'] rest IH]; simpl; auto.
  destruct (existsb (String.eqb k') ks) eqn:E; simpl.
  - destruct (k' =? k) eqn:E'; auto.
    apply String.eqb_eq in E'. subst k'.
    apply existsb_exists in E. destruct E as [x [Hx Hkx]].
    apply String.eqb_eq in Hkx. subst x. contradiction.
  - now rewrite IH.
Qed.

(** ** The settings merger *)

Lemma extract_reads_an_object (C : jsval) (creds : jsval * jsval) (k : string) :
  extract_credentials C = Ok creds -> exists v, get_prop C k = Ok v.
Proof.
  destruct C as [[]|]; simpl; intros H; try discriminate; eauto.
Qed.

Lemma falsy_has_no_fields (v : jsval) : truthy v = false -> fields_of v = [].
Proof.
  destruct v as [[]|]; simpl; auto; discriminate.
Qed.

Ltac managed := simpl; auto.

Ltac frame_rewrite :=
  repeat first
    [ rewrite assoc_put_same
    | rewrite assoc_set_field_other by discriminate
    | rewrite without_put by managed
    | rewrite without_set_field by managed ].

Lemma merge_settings_preserves (C : jsval) (creds : jsval * jsval)
  (fields : list (string * json)) :
  extract_credentials C = Ok creds ->
  exists fields',
    merge_settings C (JObj fields) = Ok (JObj fields') /\
    preserved fields fields'.
Proof.
  intros Hx.
  destruct (extract_reads_an_object C creds "name" Hx) as [nm Hnm].
  unfold merge_settings. cbn [load read_prop content get_prop bind].
  destruct (truthy (assoc "env" fields)) eqn:Ht; cbn [negb].
  - (* [env] is there *)
    cbn [bind]. rewrite Hx. cbn [bind]. rewrite Hnm.
    cbn [write_prop load content named bind].
    unfold write_nested. cbn [read_prop content get_prop bind].
    rewrite assoc_set_field_other by discriminate.
    destruct (assoc "env" fields) as [[ | b | n | s | items | efs ]|] eqn:He;
      try discriminate.
    5: { (* an object: the two credentials are set in it *)
      cbn [bind read_prop content get_prop write_prop named set_field].
      rewrite assoc_put_same.
      cbn [bind read_prop content get_prop write_prop named set_field stringify].
      eexists. split; [reflexivity|].
      constructor.
      - now frame_rewrite.
      - frame_rewrite. rewrite He. simpl fields_of. now frame_rewrite.
      - intros _ Hno. exfalso. now apply (Hno efs). }
    all: (* anything else keeps the assignments to itself *)
      cbn [bind read_prop content get_prop write_prop named];
      rewrite assoc_set_field_other by discriminate; rewrite He;
      cbn [bind stringify content];
      eexists; (split; [reflexivity|]);
      constructor;
      [ now frame_rewrite
      | frame_rewrite; now rewrite He
      | intros _ _; frame_rewrite; now rewrite He ].
  - (* no [env]: an empty one is made first *)
    cbn [write_prop load content named bind set_field].
    rewrite Hx. cbn [bind]. rewrite Hnm.
    cbn [write_prop load content named bind].
    unfold write_nested. cbn [read_prop content get_prop bind].
    frame_rewrite.
    cbn [bind read_prop content get_prop write_prop named set_field].
    frame_rewrite.
    cbn [bind read_prop content get_prop write_prop named set_field stringify].
    eexists. split; [reflexivity|].
    constructor.
    + now frame_rewrite.
    + frame_rewrite. simpl fields_of. frame_rewrite.
      now rewrite (falsy_has_no_fields _ Ht).
    + intros Habs. congruence.
Qed.

(** C1. Whatever the settings document and the selected configuration, as
    long as credentials can be extracted from the configuration and the file
    can be written, [saveSettingsPreservingHooks] stores a document that
    differs from the one it read only in [_configName],
    [env.ANTHROPIC_AUTH_TOKEN] and [env.ANTHROPIC_BASE_URL]: every other
    top-level entry and every other entry of [env] keeps its value and its
    place, and the configuration list is not touched. *)
Theorem merger_changes_only_managed_fields
  (w : world) (C : json) (creds : jsval * jsval)
  (fields : list (string * json)) :
  readSettings w = JObj fields ->
  extract_credentials (Some C) = Ok creds ->
  fault w = WriteOk ->
  exists fields',
    saveSettingsPreservingHooks (Some C) w =
      (with_settings w (Stored (JObj fields')), Done) /\
    preserved fields fields' /\
    (forall k, ~ In k managed_top -> assoc k fields' = assoc k fields) /\
    (forall k, ~ In k managed_env ->
       assoc k (fields_of (assoc "env" fields')) =
       assoc k (fields_of (assoc "env" fields))).
Proof.
  intros Hread Hx Hw.
  destruct (merge_settings_preserves (Some C) creds fields Hx)
    as [fields' [Hm Hp]].
  exists fields'. split; [|split; [assumption|split]].
  - unfold saveSettingsPreservingHooks.
    now rewrite Hread, Hm, Hw.
  - intros k Hk.
    rewrite <- (assoc_without managed_top k fields') by assumption.
    rewrite (kept_top _ _ Hp). now apply assoc_without.
  - intros k Hk.
    rewrite <- (assoc_without managed_env k (fields_of (assoc "env" fields')))
      by assumption.
    rewrite (kept_env _ _ Hp). now apply assoc_without.
Qed.

Lemma merger_changes_only_managed_fields_witness :
  readSettings (sample_world [configA; configB] settingsA WriteOk) =
    JObj settingsA /\
  extract_credentials (Some configB) =
    Ok (Some (JStr "sk-bbbb"), Some (JStr "https://y")) /\
  fault (sample_world [configA; configB] settingsA WriteOk) = WriteOk /\
  exists fields',
    saveSettingsPreservingHooks (Some configB)
      (sample_world [configA; configB] settingsA WriteOk) =
      (with_settings (sample_world [configA; configB] settingsA WriteOk)
         (Stored (JObj fields')), Done) /\
    preserved settingsA fields' /\
    (forall k, ~ In k managed_top -> assoc k fields' = assoc k settingsA) /\
    (forall k, ~ In k managed_env ->
       assoc k (fields_of (assoc "env" fields')) =
       assoc k (fields_of (assoc "env" settingsA))).
Proof.
  split; [reflexivity|split; [reflexivity|split; [reflexivity|]]].
  apply (merger_changes_only_managed_fields
           (sample_world [configA; configB] settingsA WriteOk) configB
           (Some (JStr "sk-bbbb"), Some (JStr "https://y")) settingsA);
    reflexivity.
Defined.

(** The scenario of the specification: switching from A to B rewrites the
    three fields where they stand and leaves [model], [hooks] and the other
    variable of [env] alone. *)
Example merger_scenario :
  saveSettingsPreservingHooks (Some configB)
    (sample_world [configA; configB] settingsA WriteOk) =
  (sample_world [configA; configB] settingsB WriteOk, Done).
Proof. reflexivity. Qed.

(** A settings file without [_configName] and without [env] gets both, after
    what it already holds. *)
Example merger_creates_missing_fields :
  saveSettingsPreservingHooks (Some configFlat)
    (sample_world [configFlat] [("model", JStr "opus")] WriteOk) =
  (sample_world [configFlat]
     [("model", JStr "opus");
      ("env", JObj [("ANTHROPIC_AUTH_TOKEN", JStr "sk-ffff");
                    ("ANTHROPIC_BASE_URL", JStr "https://f")]);
      ("_configName", JStr "F")]
     WriteOk, Done).
Proof. reflexivity. Qed.

(** ** Which errors the merger can raise *)

Lemma only_type_error_ok {A : Type} (a : A) : only_type_error (Ok a).
Proof. intros e H. discriminate. Qed.

Lemma only_type_error_bind {A B : Type} (c : result A) (k : A -> result B) :
  only_type_error c -> (forall a, only_type_error (k a)) ->
  only_type_error (bind c k).
Proof.
  intros Hc Hk e. destruct c as [a|e0]; simpl.
  - apply Hk.
  - intros H. inversion H. subst. now apply Hc.
Qed.

Lemma get_prop_only_type_error (v : jsval) (k : string) :
  only_type_error (get_prop v k).
Proof.
  intros e. destruct v as [[]|]; simpl; intros H; now inversion H.
Qed.

Lemma read_prop_only_type_error (o : heapobj) (k : string) :
  only_type_error (read_prop o k).
Proof.
  intros e. unfold read_prop.
  destruct (content o); simpl; intros H; now inversion H.
Qed.

Lemma write_prop_only_type_error (o : heapobj) (k : string) (v : jsval) :
  only_type_error (write_prop o k v).
Proof.
  intros e. unfold write_prop.
  destruct (content o); simpl; intros H; now inversion H.
Qed.

Lemma write_nested_only_type_error (o : heapobj) (holder k : string)
  (v : jsval) :
  only_type_error (write_nested o holder k v).
Proof.
  unfold write_nested. apply only_type_error_bind.
  - apply read_prop_only_type_error.
  - intros [[]|]; try apply write_prop_only_type_error;
      try apply only_type_error_ok; intros e H; now inversion H.
Qed.

Create HintDb type_errors.

#[local] Hint Resolve only_type_error_ok get_prop_only_type_error
  read_prop_only_type_error write_prop_only_type_error
  write_nested_only_type_error : type_errors.

(** The merger raises the error of the invalid format exactly when the
    extraction does, on any settings document but [null]. *)
Lemma merge_settings_invalid_format (C : jsval) (parsed : json) :
  parsed <> JNull ->
  merge_settings C parsed = Throw InvalidConfigFormat <->
  extract_credentials C = Throw InvalidConfigFormat.
Proof.
  intros Hnn. unfold merge_settings.
  assert (Hpre : exists o,
    (env <- read_prop (load parsed) "env" ;;
     if negb (truthy env)
     then write_prop (load parsed) "env" (Some (JObj []))
     else Ok (load parsed)) = Ok o).
  { destruct parsed as [ | b | n | s | items | fields ]; try congruence;
      cbn [load read_prop content get_prop bind].
    5: destruct (negb (truthy (assoc "env" fields))).
    all: cbn; eauto. }
  destruct Hpre as [o Ho].
  destruct (read_prop (load parsed) "env") as [env|e] eqn:Hr;
    cbn [bind] in Ho |- *; [|discriminate].
  rewrite Ho. cbn [bind].
  destruct (extract_credentials C) as [creds|e] eqn:Hx; cbn [bind].
  - split; [|discriminate]. intros H. exfalso.
    assert (Hno : only_type_error
      (name <- get_prop C "name" ;;
       currentSettings <- write_prop o "_configName" name ;;
       currentSettings <-
         write_nested currentSettings "env" "ANTHROPIC_AUTH_TOKEN" (fst creds) ;;
       currentSettings <-
         write_nested currentSettings "env" "ANTHROPIC_BASE_URL" (snd creds) ;;
       Ok (stringify currentSettings))).
    { repeat (apply only_type_error_bind; [auto with type_errors|intros ?]).
      auto with type_errors. }
    apply Hno in H. discriminate.
  - split; intros H; inversion H; reflexivity.
Qed.

(** What the extraction does, by the shape of the configuration. *)
Lemma extract_credentials_by_shape (C : json) :
  C <> JNull ->
  (truthy (path (Some C) ["config"; "env"]) = true ->
   extract_credentials (Some C) = Ok (nested_credentials C)) /\
  (truthy (path (Some C) ["config"; "env"]) = false ->
   yields_both (flat_credentials C) = true ->
   extract_credentials (Some C) = Ok (flat_credentials C)) /\
  (truthy (path (Some C) ["config"; "env"]) = false ->
   yields_both (flat_credentials C) = false ->
   extract_credentials (Some C) = Throw InvalidConfigFormat).
Proof.
  intros Hnn.
  destruct C as [ | b | n | s | items | cf ]; try congruence;
    try (cbn; repeat split; intros; congruence).
  unfold extract_credentials, nested_credentials, flat_credentials,
    yields_both, js_and.
  cbn [get_prop bind path fst snd].
  assert (Hflat :
    (yields_both (flat_credentials (JObj cf)) = true ->
     (flatToken <- Ok (assoc "authToken" cf) ;;
      flat <- (if truthy flatToken then Ok (assoc "baseUrl" cf)
               else Ok flatToken) ;;
      if truthy flat then Ok (flatToken, flat)
      else Throw InvalidConfigFormat)
     = Ok (assoc "authToken" cf, assoc "baseUrl" cf)) /\
    (yields_both (flat_credentials (JObj cf)) = false ->
     (flatToken <- Ok (assoc "authToken" cf) ;;
      flat <- (if truthy flatToken then Ok (assoc "baseUrl" cf)
               else Ok flatToken) ;;
      if truthy flat then Ok (flatToken, flat)
      else Throw InvalidConfigFormat)
     = Throw InvalidConfigFormat)).
  { unfold yields_both, flat_credentials. cbn [path fst snd bind].
    destruct (truthy (assoc "authToken" cf)) eqn:Ha; cbn [bind andb].
    - destruct (truthy (assoc "baseUrl" cf)) eqn:Hb; split; congruence.
    - rewrite Ha. split; congruence. }
  unfold yields_both, flat_credentials in Hflat. cbn [path fst snd] in Hflat.
  destruct Hflat as [Hboth Hnone].
  destruct (assoc "config" cf) as [[ | b | n | s | items | gf ]|] eqn:Hc;
    cbn [truthy get_prop bind path].
  6: { (* [config] is an object *)
    destruct (truthy (assoc "env" gf)) eqn:Ht.
    - repeat split; intros; try congruence.
      destruct (assoc "env" gf) as [[]|]; try discriminate; reflexivity.
    - repeat split; intros; try congruence; auto. }
  all: (* [config] is absent or holds no object *)
    try destruct b;
    try destruct (negb (n =? 0)%Z) eqn:E;
    try destruct (negb (s =? EmptyString)) eqn:E;
    cbn [bind truthy get_prop path]; rewrite ?E;
    repeat split; intros; try congruence; auto.
Qed.

(** C3, as amended.  For a configuration that is not [null] and a settings
    document that is not [null]: the credentials are read from [config.env]
    whenever it is present, whatever it holds; otherwise from the flat
    [authToken] and [baseUrl] when both are present; and the merger ends
    with the invalid-format error (exit code 1) exactly when [config.env] is
    absent and the flat fields are not both present. *)
Theorem merger_fails_on_shape_only (w : world) (C : json) :
  readSettings w <> JNull ->
  C <> JNull ->
  (truthy (path (Some C) ["config"; "env"]) = true ->
   extract_credentials (Some C) = Ok (nested_credentials C)) /\
  (truthy (path (Some C) ["config"; "env"]) = false ->
   yields_both (flat_credentials C) = true ->
   extract_credentials (Some C) = Ok (flat_credentials C)) /\
  (snd (saveSettingsPreservingHooks (Some C) w) = Exit 1 InvalidConfigFormat <->
   truthy (path (Some C) ["config"; "env"]) = false /\
   yields_both (flat_credentials C) = false).
Proof.
  intros Hs Hc.
  destruct (extract_credentials_by_shape C Hc) as [Hn [Hf He]].
  split; [assumption|split; [assumption|]].
  pose proof (merge_settings_invalid_format (Some C) (readSettings w) Hs) as Hm.
  unfold saveSettingsPreservingHooks.
  split.
  - intros Hexit.
    assert (Hx : extract_credentials (Some C) = Throw InvalidConfigFormat).
    { apply Hm.
      destruct (merge_settings (Some C) (readSettings w)) as [doc|e].
      - unfold writeFileSync in Hexit.
        destruct (fault w); simpl in Hexit; discriminate.
      - simpl in Hexit. congruence. }
    destruct (truthy (path (Some C) ["config"; "env"])) eqn:Ht.
    + rewrite Hn in Hx by reflexivity. discriminate.
    + split; [reflexivity|].
      destruct (yields_both (flat_credentials C)) eqn:Hy; [|reflexivity].
      rewrite Hf in Hx by reflexivity. discriminate.
  - intros [Ht Hy].
    apply He in Ht; [|assumption]. apply Hm in Ht. now rewrite Ht.
Qed.

Lemma merger_fails_on_shape_only_witness :
  readSettings (sample_world [configFlat] settingsA WriteOk) <> JNull /\
  configFlat <> JNull /\
  (truthy (path (Some configFlat) ["config"; "env"]) = true ->
   extract_credentials (Some configFlat) = Ok (nested_credentials configFlat)) /\
  (truthy (path (Some configFlat) ["config"; "env"]) = false ->
   yields_both (flat_credentials configFlat) = true ->
   extract_credentials (Some configFlat) = Ok (flat_credentials configFlat)) /\
  (snd (saveSettingsPreservingHooks (Some configFlat)
          (sample_world [configFlat] settingsA WriteOk))
     = Exit 1 InvalidConfigFormat <->
   truthy (path (Some configFlat) ["config"; "env"]) = false /\
   yields_both (flat_credentials configFlat) = false).
Proof.
  split; [discriminate|split; [discriminate|]].
  apply (merger_fails_on_shape_only
           (sample_world [configFlat] settingsA WriteOk) configFlat);
    discriminate.
Defined.

(** C3 as it was stated does not hold: [config.env] is present but empty, so
    that neither shape yields the two values, and the merger does not end
    with the invalid-format error. *)
Lemma merger_accepts_hollow_config :
  ~ (snd (saveSettingsPreservingHooks (Some configHollow)
            (sample_world [configHollow] settingsA WriteOk))
       = Exit 1 InvalidConfigFormat <->
     yields_both (nested_credentials configHollow) = false /\
     yields_both (flat_credentials configHollow) = false).
Proof.
  intros [_ H]. specialize (H (conj eq_refl eq_refl)). discriminate.
Qed.

(** What it does instead: it stores settings without credentials. *)
Example hollow_config_erases_credentials :
  saveSettingsPreservingHooks (Some configHollow)
    (sample_world [configHollow] settingsA WriteOk) =
  (sample_world [configHollow]
     [("model", JStr "opus");
      ("_configName", JStr "H");
      ("env", JObj [("DISABLE_TELEMETRY", JStr "1")]);
      ("hooks", JObj [("x", JNum 1)])]
     WriteOk, Done).
Proof. reflexivity. Qed.

(** ** A write that fails *)

(** C4, as amended.  When the merged document cannot be written, the
    operation is fatal: the error is printed and the process exits with code
    1, and the configuration list is not touched.  The settings file is
    written in place: it is as it was when the failure comes before the file
    is opened, and it is left truncated, holding no JSON document, when the
    failure comes after.  [saveSettings] behaves the same. *)
Theorem failed_write_is_fatal (w : world) (C : jsval) (doc : json) :
  merge_settings C (readSettings w) = Ok doc ->
  fault w <> WriteOk ->
  saveSettingsPreservingHooks C w = saveSettings doc w /\
  snd (saveSettings doc w) = Exit 1 WriteFailed /\
  apiConfigsFile (fst (saveSettings doc w)) = apiConfigsFile w /\
  (fault w = OpenFails ->
   settingsFile (fst (saveSettings doc w)) = settingsFile w) /\
  (fault w = WriteFailsAfterOpen ->
   settingsFile (fst (saveSettings doc w)) = Garbled).
Proof.
  intros Hm Hf. unfold saveSettingsPreservingHooks. rewrite Hm.
  unfold saveSettings, writeFileSync.
  destruct (fault w) eqn:E; [congruence| |]; cbn;
    repeat split; intros; congruence.
Qed.

Lemma failed_write_is_fatal_witness :
  merge_settings (Some configB)
    (readSettings (sample_world [configA; configB] settingsA OpenFails))
    = Ok (JObj settingsB) /\
  fault (sample_world [configA; configB] settingsA OpenFails) <> WriteOk /\
  saveSettingsPreservingHooks (Some configB)
    (sample_world [configA; configB] settingsA OpenFails)
    = (sample_world [configA; configB] settingsA OpenFails,
       Exit 1 WriteFailed).
Proof.
  split; [reflexivity|split; [discriminate|]].
  destruct (failed_write_is_fatal
              (sample_world [configA; configB] settingsA OpenFails)
              (Some configB) (JObj settingsB) eq_refl) as [Hsame _].
  - discriminate.
  - rewrite Hsame. reflexivity.
Defined.

(** C4 as it was stated does not hold: the disk fills up while the settings
    are being written; the process exits with code 1, and the settings file,
    which held a JSON document, is neither what it was nor a JSON document
    any more. *)
Lemma failed_write_corrupts_settings :
  let before := sample_world [configA; configB] settingsA WriteFailsAfterOpen in
  let after := fst (saveSettingsPreservingHooks (Some configB) before) in
  snd (saveSettingsPreservingHooks (Some configB) before) = Exit 1 WriteFailed /\
  holds_json (settingsFile before) = true /\
  ~ (settingsFile after = settingsFile before \/
     holds_json (settingsFile after) = true).
Proof.
  cbn. repeat split. intros [H|H]; discriminate.
Qed.

(** ** Reading properties *)

Lemma get_prop_path (v : jsval) (k : string) :
  v <> None -> v <> Some JNull -> get_prop v k = Ok (path v [k]).
Proof.
  destruct v as [[]|]; simpl; intros; try reflexivity; congruence.
Qed.

Lemma get_prop_truthy (v : jsval) (k : string) :
  truthy v = true -> get_prop v k = Ok (path v [k]).
Proof.
  intros Ht. apply get_prop_path; intros ->; discriminate.
Qed.

Lemma get_prop_json (v : json) (k : string) :
  v <> JNull -> get_prop (Some v) k = Ok (path (Some v) [k]).
Proof.
  intros Hv. apply get_prop_path; congruence.
Qed.

Lemma path_step (v : jsval) (k : string) (ks : list string) :
  path v (k :: ks) = path (path v [k]) ks.
Proof.
  destruct v as [[]|]; simpl; auto; now destruct ks.
Qed.

Lemma path_or_empty (v : jsval) (k : string) :
  path (js_or v (Some (JObj []))) [k] = path v [k].
Proof.
  unfold js_or. destruct v as [[ | [] | n | s | | ]|]; simpl; auto.
  - now destruct (n =? 0)%Z.
  - now destruct (s =? EmptyString).
Qed.

Lemma js_or_truthy (v : jsval) : truthy (js_or v (Some (JObj []))) = true.
Proof.
  unfold js_or. destruct (truthy v) eqn:E; auto.
Qed.

(** ** The searches of the resolver *)

Section Find.

Variable p : json -> result bool.

Lemma js_find_none (l : list json) :
  (forall x, In x l -> p x = Ok false) -> js_find p l = Ok undefined.
Proof.
  induction l as [|x rest IH]; simpl; intros H; auto.
  rewrite (H x) by auto. simpl. apply IH. auto.
Qed.

Lemma js_find_first (pre post : list json) (c : json) :
  (forall x, In x pre -> p x = Ok false) -> p c = Ok true ->
  js_find p (pre ++ c :: post) = Ok (Some c).
Proof.
  intros Hpre Hc. induction pre as [|x rest IH]; simpl.
  - now rewrite Hc.
  - rewrite (Hpre x) by (simpl; auto). simpl. apply IH.
    intros y Hy. apply Hpre. simpl. auto.
Qed.

Lemma js_find_found (l : list json) (c : json) :
  js_find p l = Ok (Some c) -> In c l /\ p c = Ok true.
Proof.
  induction l as [|x rest IH]; simpl; intros H; [discriminate|].
  destruct (p x) as [[|]|e] eqn:E; simpl in H; try discriminate.
  - inversion H. subst. auto.
  - destruct (IH H). auto.
Qed.

End Find.

Lemma name_matches_eq (configName : jsval) (c : json) :
  c <> JNull ->
  name_matches configName c = Ok (strict_eq (path (Some c) ["name"]) configName).
Proof.
  intros Hc. unfold name_matches. now rewrite get_prop_json.
Qed.

(** The callback of the fallback search accepts an entry exactly when it has
    a [config] and the two credentials under [config.env] are those of the
    settings. *)
Lemma credentials_match_eq (settings c : json) :
  settings <> JNull -> c <> JNull ->
  credentials_match settings c =
  Ok (truthy (path (Some c) ["config"]) && value_equal settings c).
Proof.
  intros Hs Hc. unfold credentials_match, value_equal.
  rewrite (get_prop_json c) by assumption. cbn [bind].
  destruct (truthy (path (Some c) ["config"])) eqn:Ht; cbn [negb andb]; auto.
  rewrite (get_prop_json settings) by assumption. cbn [bind].
  rewrite (get_prop_truthy _ "env" Ht). cbn [bind].
  rewrite !get_prop_truthy by apply js_or_truthy. cbn [bind].
  rewrite !path_or_empty.
  rewrite (path_step (Some settings) "env" ["ANTHROPIC_BASE_URL"]).
  rewrite (path_step (Some settings) "env" ["ANTHROPIC_AUTH_TOKEN"]).
  rewrite (path_step (Some c) "config" ["env"; "ANTHROPIC_BASE_URL"]).
  rewrite (path_step (Some c) "config" ["env"; "ANTHROPIC_AUTH_TOKEN"]).
  rewrite (path_step (path (Some c) ["config"]) "env" ["ANTHROPIC_BASE_URL"]).
  rewrite (path_step (path (Some c) ["config"]) "env" ["ANTHROPIC_AUTH_TOKEN"]).
  now destruct (strict_eq _ _).
Qed.

Lemma settings_is_empty_total (settings : json) :
  exists b, settings_is_empty settings = Ok b /\
            (b = false -> settings <> JNull).
Proof.
  unfold settings_is_empty.
  destruct settings; simpl; eauto;
    try (eexists; split; [reflexivity|congruence]).
  - destruct b; simpl; eexists; (split; [reflexivity|congruence]).
  - destruct (n =? 0)%Z; simpl; eexists; (split; [reflexivity|congruence]).
  - destruct (s =? EmptyString); simpl; eexists;
      (split; [reflexivity|congruence]).
Qed.

Lemma getCurrentConfig_nonempty (w : world) (fields : list (string * json)) :
  readSettings w = JObj fields -> fields <> [] ->
  getCurrentConfig w = match_config (JObj fields) (readApiConfigs w).
Proof.
  intros Hs Hne. unfold getCurrentConfig, settings_is_empty. rewrite Hs.
  destruct fields; [congruence|reflexivity].
Qed.

(** C2. The settings document names a configuration ([_configName] is set,
    that is, holds something truthy) and the list has a configuration with
    exactly that name, [c], the first one with it (names are unique in a
    list): the resolver returns [c].  Nothing is asked of the credentials,
    which may be those of any other entry: the name decides. *)
Theorem name_match_wins (w : world) (fields : list (string * json))
  (pre post : list json) (c : json) :
  readSettings w = JObj fields ->
  truthy (assoc "_configName" fields) = true ->
  readApiConfigs w = JArr (pre ++ c :: post) ->
  strict_eq (path (Some c) ["name"]) (assoc "_configName" fields) = true ->
  (forall d, In d pre ->
     d <> JNull /\
     strict_eq (path (Some d) ["name"]) (assoc "_configName" fields) = false) ->
  getCurrentConfig w = Ok (Some c).
Proof.
  intros Hs Hset Hl Hc Hpre.
  assert (Hobj : exists cf, c = JObj cf).
  { destruct c; simpl in Hc; try (destruct (assoc "_configName" fields)
      as [[]|]; discriminate). eauto. }
  destruct Hobj as [cf ->].
  rewrite (getCurrentConfig_nonempty w fields Hs)
    by (intros ->; discriminate).
  unfold match_config. cbn [get_prop bind]. rewrite Hset, Hl.
  cbn [as_array bind].
  rewrite js_find_first.
  - reflexivity.
  - intros d Hd. destruct (Hpre d Hd) as [Hnn Hne].
    now rewrite name_matches_eq, Hne.
  - rewrite name_matches_eq by discriminate. now rewrite Hc.
Qed.

Lemma name_match_wins_witness :
  readSettings (sample_world [configA; configB] settingsStale WriteOk)
    = JObj settingsStale /\
  truthy (assoc "_configName" settingsStale) = true /\
  readApiConfigs (sample_world [configA; configB] settingsStale WriteOk)
    = JArr ([configA] ++ configB :: []) /\
  value_equal (JObj settingsStale) configA = true /\
  getCurrentConfig (sample_world [configA; configB] settingsStale WriteOk)
    = Ok (Some configB).
Proof.
  repeat (split; [reflexivity|]).
  apply (name_match_wins
           (sample_world [configA; configB] settingsStale WriteOk)
           settingsStale [configA] [] configB);
    try reflexivity.
  intros d [<-|[]]. split; [discriminate|reflexivity].
Defined.

(** ** No active configuration *)

Lemma resolver_no_match (w : world) (configs : list json) :
  readApiConfigs w = JArr configs ->
  (forall c, In c configs ->
     c <> JNull /\
     name_equal (readSettings w) c = false /\
     value_equal (readSettings w) c = false) ->
  getCurrentConfig w = Ok null.
Proof.
  intros Hl Hno. unfold getCurrentConfig.
  destruct (settings_is_empty_total (readSettings w)) as [[|] [He Hnn]];
    rewrite He; cbn [bind]; [reflexivity|].
  specialize (Hnn eq_refl).
  unfold match_config. rewrite get_prop_json by assumption. cbn [bind].
  rewrite Hl. cbn [as_array bind].
  assert (Hname : (if truthy (path (Some (readSettings w)) ["_configName"])
                   then js_find
                          (name_matches
                             (path (Some (readSettings w)) ["_configName"]))
                          configs
                   else Ok undefined) = Ok undefined).
  { destruct (truthy (path (Some (readSettings w)) ["_configName"])) eqn:Ht;
      [|reflexivity].
    apply js_find_none. intros c Hc. destruct (Hno c Hc) as [Hc0 [Hn _]].
    rewrite name_matches_eq by assumption.
    unfold name_equal in Hn. rewrite Ht in Hn. cbn [andb] in Hn.
    now rewrite Hn. }
  rewrite Hname. cbn [bind truthy undefined].
  rewrite js_find_none; [reflexivity|].
  intros c Hc. destruct (Hno c Hc) as [Hc0 [_ Hv]].
  rewrite credentials_match_eq by assumption.
  rewrite Hv. now rewrite andb_false_r.
Qed.

(** C5. Whatever the settings file holds, the resolver returns [null],
    raising nothing, when the configuration list is empty, and when no
    entry of the list (a JSON value other than [null]) matches the settings
    document by name or by value. *)
Theorem resolver_returns_null (w : world) (configs : list json) :
  readApiConfigs w = JArr configs ->
  configs = [] \/
  (forall c, In c configs ->
     c <> JNull /\
     name_equal (readSettings w) c = false /\
     value_equal (readSettings w) c = false) ->
  getCurrentConfig w = Ok null.
Proof.
  intros Hl [->|Hno]; apply (resolver_no_match w _ Hl); auto.
  intros c [].
Qed.

Lemma resolver_returns_null_witness :
  readApiConfigs (sample_world [configB] settingsA WriteOk) = JArr [configB] /\
  (forall c, In c [configB] ->
     c <> JNull /\
     name_equal (readSettings (sample_world [configB] settingsA WriteOk)) c
       = false /\
     value_equal (readSettings (sample_world [configB] settingsA WriteOk)) c
       = false) /\
  getCurrentConfig (sample_world [configB] settingsA WriteOk) = Ok null.
Proof.
  assert (H : forall c, In c [configB] ->
     c <> JNull /\
     name_equal (readSettings (sample_world [configB] settingsA WriteOk)) c
       = false /\
     value_equal (readSettings (sample_world [configB] settingsA WriteOk)) c
       = false).
  { intros c [<-|[]]. repeat split. discriminate. }
  split; [reflexivity|split; [exact H|]].
  apply (resolver_returns_null
           (sample_world [configB] settingsA WriteOk) [configB]);
    [reflexivity|right; exact H].
Defined.

(** An empty list and a settings file that cannot even be parsed. *)
Example resolver_on_empty_list :
  getCurrentConfig
    {| apiConfigsFile := Stored (JArr []); settingsFile := Garbled;
       fault := WriteOk |} = Ok null.
Proof. reflexivity. Qed.

(** ** Entries in the flat shape *)

Lemma credentials_match_needs_config (settings c : json) :
  c <> JNull ->
  truthy (path (Some c) ["config"]) = false ->
  credentials_match settings c = Ok false.
Proof.
  intros Hc Hno. unfold credentials_match.
  rewrite get_prop_json by assumption. cbn [bind]. now rewrite Hno.
Qed.

(** C9. An entry of the list without a [config] field (the flat shape keeps
    [authToken] and [baseUrl] at the top level) is refused by the fallback
    search whatever the settings hold, its own credentials included; when
    the resolver returns such an entry, it is because the settings name it:
    [_configName] is set and equal to the entry's name. *)
Theorem fallback_skips_entries_without_config (w : world) (c : json) :
  c <> JNull ->
  truthy (path (Some c) ["config"]) = false ->
  (forall settings, credentials_match settings c = Ok false) /\
  (getCurrentConfig w = Ok (Some c) -> name_equal (readSettings w) c = true).
Proof.
  intros Hc Hno. split.
  - intros settings. now apply credentials_match_needs_config.
  - unfold getCurrentConfig.
    destruct (settings_is_empty_total (readSettings w)) as [[|] [He Hnn]];
      rewrite He; cbn [bind].
    + unfold null. congruence.
    + specialize (Hnn eq_refl). unfold match_config, name_equal.
      rewrite get_prop_json by assumption. cbn [bind].
      destruct (as_array (readApiConfigs w)) as [l|e] eqn:Hl; cbn [bind].
      * destruct (truthy (path (Some (readSettings w)) ["_configName"]))
          eqn:Hset; cbn [bind andb].
        -- destruct (js_find _ l) as [matched|e] eqn:Hf at 1; cbn [bind];
             [|discriminate].
           destruct (truthy matched) eqn:Hm.
           ++ intros H. inversion H. subst matched.
              apply js_find_found in Hf. destruct Hf as [_ Hf].
              rewrite name_matches_eq in Hf by assumption.
              injection Hf as Hf. exact Hf.
           ++ destruct (js_find (credentials_match _) l) as [found|e] eqn:Hg;
                cbn [bind]; [|discriminate].
              unfold js_or. destruct (truthy found) eqn:Hfound;
                [|unfold null; congruence].
              intros H. inversion H. subst found.
              apply js_find_found in Hg. destruct Hg as [_ Hg].
              rewrite credentials_match_needs_config in Hg by assumption.
              discriminate.
        -- cbn [truthy undefined].
           destruct (js_find (credentials_match _) l) as [found|e] eqn:Hg;
             cbn [bind]; [|discriminate].
           unfold js_or. destruct (truthy found) eqn:Hfound;
             [|unfold null; congruence].
           intros H. inversion H. subst found.
           apply js_find_found in Hg. destruct Hg as [_ Hg].
           rewrite credentials_match_needs_config in Hg by assumption.
           discriminate.
      * destruct (truthy (path (Some (readSettings w)) ["_configName"]));
          cbn [bind truthy undefined]; discriminate.
Qed.

Lemma fallback_skips_entries_without_config_witness :
  configFlat <> JNull /\
  truthy (path (Some configFlat) ["config"]) = false /\
  (forall settings, credentials_match settings configFlat = Ok false) /\
  (getCurrentConfig
     (sample_world [configA; configFlat]
        [("_configName", JStr "F"); ("env", JObj [])] WriteOk)
     = Ok (Some configFlat) ->
   name_equal
     (readSettings
        (sample_world [configA; configFlat]
           [("_configName", JStr "F"); ("env", JObj [])] WriteOk))
     configFlat = true).
Proof.
  split; [discriminate|split; [reflexivity|]].
  apply (fallback_skips_entries_without_config
           (sample_world [configA; configFlat]
              [("_configName", JStr "F"); ("env", JObj [])] WriteOk)
           configFlat); [discriminate|reflexivity].
Defined.

(** The settings carry exactly the credentials of the flat entry and no
    name: the resolver finds nothing.  Once they name it, it is found. *)
Example flat_entry_not_found_by_value :
  getCurrentConfig
    (sample_world [configFlat]
       [("env", JObj [("ANTHROPIC_AUTH_TOKEN", JStr "sk-ffff");
                      ("ANTHROPIC_BASE_URL", JStr "https://f")])] WriteOk)
  = Ok null.
Proof. reflexivity. Qed.

Example flat_entry_found_by_name :
  getCurrentConfig
    (sample_world [configA; configFlat]
       [("_configName", JStr "F"); ("env", JObj [])] WriteOk)
  = Ok (Some configFlat).
Proof. reflexivity. Qed.

(** ** Empty settings *)

(** C10. When the settings document is an object without any key, the
    resolver returns [null] at once, whatever the configuration file holds:
    neither search is run, not even where the fallback search would have
    accepted an entry (one whose [config.env] has no credentials either), or
    where the list is no array and searching it would have thrown. *)
Theorem empty_settings_resolve_to_null :
  (forall (api : file) (fl : write_fault),
     getCurrentConfig
       {| apiConfigsFile := api; settingsFile := Stored (JObj []);
          fault := fl |} = Ok null) /\
  match_config (JObj []) (JArr [configHollow]) = Ok (Some configHollow) /\
  match_config (JObj []) (JObj []) = Throw TypeError.
Proof.
  repeat split.
Qed.

(** ** The menu *)

Lemma menu_line_shown (currentConfig : jsval) (index : nat) (config : json)
  (line : choice) :
  menu_line currentConfig index config = Ok line ->
  is_active currentConfig (Some config) = Ok (current line) /\
  exists name, get_prop (Some config) "name" = Ok (Some (JStr name)).
Proof.
  unfold menu_line.
  destruct (is_active currentConfig (Some config)) as [b|e]; cbn [bind];
    [|discriminate].
  destruct (get_prop (Some config) "name") as [[[ | | | name | | ]|]|e];
    cbn [bind pad_end]; try discriminate.
  destruct (get_prop (Some config) "config") as [c|e]; cbn [bind];
    [|discriminate].
  destruct (get_prop c "env") as [env|e]; cbn [bind]; [|discriminate].
  destruct (get_prop env "ANTHROPIC_AUTH_TOKEN"); cbn [bind]; [|discriminate].
  destruct (get_prop env "ANTHROPIC_BASE_URL"); cbn [bind]; [|discriminate].
  intros H. inversion H. simpl. eauto.
Qed.

Lemma menu_choices_shown (currentConfig : jsval) (l : list json) :
  forall (index : nat) (lines : list choice),
    menu_choices currentConfig index l = Ok lines ->
    forall config, In config l ->
      (exists b, is_active currentConfig (Some config) = Ok b) /\
      (exists name, get_prop (Some config) "name" = Ok (Some (JStr name))).
Proof.
  induction l as [|x rest IH]; intros index lines H config Hin;
    [contradiction|].
  simpl in H.
  destruct (menu_line currentConfig index x) as [line|e] eqn:Hline;
    cbn [bind] in H; [|discriminate].
  destruct (menu_choices currentConfig (S index) rest) as [more|e] eqn:Hrest;
    cbn [bind] in H; [|discriminate].
  destruct Hin as [<-|Hin].
  - apply menu_line_shown in Hline. destruct Hline as [Ha Hn]. eauto.
  - eapply IH; eauto.
Qed.

(** What is known once the menu is on the screen. *)
Lemma prepare_menu_shown (w : world) (l : list json) (currentConfig : jsval) :
  prepare_menu w = Ok (l, currentConfig) ->
  readApiConfigs w = JArr l /\
  getCurrentConfig w = Ok currentConfig /\
  forall config, In config l ->
    (exists b, is_active currentConfig (Some config) = Ok b) /\
    (exists name, get_prop (Some config) "name" = Ok (Some (JStr name))).
Proof.
  unfold prepare_menu.
  destruct (getCurrentConfig w) as [cur|e]; cbn [bind]; [|discriminate].
  destruct (readApiConfigs w) as [ | | | | items | ]; cbn [as_array bind];
    try discriminate.
  destruct (max_name_length items); cbn [bind]; [|discriminate].
  destruct (menu_choices cur 0 items) as [lines|e] eqn:Hm; cbn [bind];
    [|discriminate].
  intros H. inversion H. subst. repeat split.
  all: eapply menu_choices_shown; eauto.
Qed.

Lemma list_is_not_empty (l : list json) :
  l <> [] ->
  exists len, js_length (Some (JArr l)) = Ok len /\
              strict_eq len (Some (JNum 0)) = false.
Proof.
  intros Hne. simpl. eexists. split; [reflexivity|].
  destruct l; [congruence|]. reflexivity.
Qed.

(** ** Removing an entry *)

Lemma splice1_middle (pre post : list json) (x : json) :
  splice1 (List.length pre) (pre ++ x :: post) = pre ++ post.
Proof.
  unfold splice1.
  rewrite firstn_app, Nat.sub_diag, firstn_all. simpl firstn.
  rewrite app_nil_r. f_equal.
  replace (S (List.length pre)) with (List.length pre + 1) by lia.
  rewrite skipn_app.
  rewrite skipn_all2 by lia.
  replace (List.length pre + 1 - List.length pre) with 1 by lia.
  reflexivity.
Qed.

(** C6. The menu of the remove workflow is on the screen for a list of
    length n, the user takes the line of ordinal i, with 1 <= i <= n, and
    confirms, and the file can be written: the list that is stored is the
    former one without its i-th element; the elements before it and after it
    are the same, in the same order.  The settings file is not touched. *)
Theorem remove_deletes_the_ith (w : world) (l : list json)
  (currentConfig : jsval) (s : remove_script) (i : nat) :
  prepare_menu w = Ok (l, currentConfig) ->
  1 <= i <= List.length l ->
  pick s = i - 1 ->
  confirmRemove s = true ->
  fault w = WriteOk ->
  exists pre x post wasActive,
    l = pre ++ x :: post /\
    List.length pre = i - 1 /\
    apiConfigsFile (fst (removeConfig s w)) = Stored (JArr (pre ++ post)) /\
    settingsFile (fst (removeConfig s w)) = settingsFile w /\
    snd (removeConfig s w) = Removed (Some x) wasActive.
Proof.
  intros Hmenu Hi Hpick Hconfirm Hw.
  destruct (prepare_menu_shown w l currentConfig Hmenu) as [Hl [_ Hshown]].
  destruct (nth_error l (i - 1)) as [x|] eqn:Hx;
    [|apply nth_error_None in Hx; lia].
  destruct (nth_error_split l (i - 1) Hx) as [pre [post [Hsplit Hlen]]].
  assert (Hin : In x l) by (eapply nth_error_In; eauto).
  destruct (Hshown x Hin) as [[b Hb] [name Hname]].
  exists pre, x, post, b. split; [assumption|split; [assumption|]].
  unfold removeConfig. rewrite Hl.
  destruct (list_is_not_empty l) as [len [Hlen0 Hnz]].
  { intros ->. simpl in Hi. lia. }
  rewrite Hlen0, Hnz, Hmenu.
  unfold remove_handler. rewrite Hpick, Hx, Hb, Hconfirm.
  unfold saveApiConfigs, writeFileSync. rewrite Hw.
  rewrite Hname. rewrite <- Hlen. rewrite Hsplit at 1.
  rewrite splice1_middle. cbn [fst snd with_apiConfigs apiConfigsFile
    settingsFile]. repeat split.
Qed.

Lemma remove_deletes_the_ith_witness :
  prepare_menu (sample_world [configA; configB] settingsA WriteOk)
    = Ok ([configA; configB], Some configA) /\
  1 <= 2 <= List.length [configA; configB] /\
  pick remove_second = 2 - 1 /\
  confirmRemove remove_second = true /\
  fault (sample_world [configA; configB] settingsA WriteOk) = WriteOk /\
  exists pre x post wasActive,
    [configA; configB] = pre ++ x :: post /\
    List.length pre = 2 - 1 /\
    apiConfigsFile
      (fst (removeConfig remove_second
              (sample_world [configA; configB] settingsA WriteOk)))
      = Stored (JArr (pre ++ post)) /\
    settingsFile
      (fst (removeConfig remove_second
              (sample_world [configA; configB] settingsA WriteOk)))
      = settingsFile (sample_world [configA; configB] settingsA WriteOk) /\
    snd (removeConfig remove_second
           (sample_world [configA; configB] settingsA WriteOk))
      = Removed (Some x) wasActive.
Proof.
  split; [reflexivity|split; [simpl; lia|]].
  split; [reflexivity|split; [reflexivity|split; [reflexivity|]]].
  apply (remove_deletes_the_ith
           (sample_world [configA; configB] settingsA WriteOk)
           [configA; configB] (Some configA) remove_second 2);
    try reflexivity.
  simpl. lia.
Defined.

Example remove_second_of_two :
  removeConfig remove_second
    (sample_world [configA; configB] settingsA WriteOk) =
  (sample_world [configA] settingsA WriteOk, Removed (Some configB) false).
Proof. reflexivity. Qed.

(** Removing the active entry leaves the settings pointing at its name;
    the resolver then falls back on the credentials and finds nothing. *)
Example remove_active_entry :
  removeConfig {| pick := 0; confirmRemove := true |}
    (sample_world [configA; configB] settingsA WriteOk) =
  (sample_world [configB] settingsA WriteOk, Removed (Some configA) true) /\
  getCurrentConfig (sample_world [configB] settingsA WriteOk) = Ok null.
Proof. split; reflexivity. Qed.

(** The menu reads [config.env] of every entry: with an entry in the flat
    shape in the list no menu is shown, in either workflow. *)
Example no_menu_with_a_flat_entry :
  removeConfig remove_second
    (sample_world [configA; configFlat] settingsA WriteOk) =
  (sample_world [configA; configFlat] settingsA WriteOk, Crashed TypeError) /\
  listAndSelectConfig take_first_line
    (sample_world [configA; configFlat] settingsA WriteOk) =
  (sample_world [configA; configFlat] settingsA WriteOk, Crashed TypeError).
Proof. split; reflexivity. Qed.

(** ** Selecting the active configuration *)

Lemma is_active_itself (config : json) (name : string) :
  get_prop (Some config) "name" = Ok (Some (JStr name)) ->
  is_active (Some config) (Some config) = Ok true.
Proof.
  intros Hn. unfold is_active.
  assert (Ht : truthy (Some config) = true).
  { destruct config; simpl in Hn; try discriminate. reflexivity. }
  rewrite Ht, Hn. cbn [bind strict_eq]. now rewrite String.eqb_refl.
Qed.

(** C8. The menu of the list workflow is on the screen and the resolver
    reports [cur] as the active configuration; the user selects [cur], by
    its line or by its ordinal: the workflow reports that it is already
    active and ends there, with both files as they were. *)
Theorem selecting_active_is_noop (w : world) (l : list json) (cur : json)
  (s : list_script) :
  getCurrentConfig w = Ok (Some cur) ->
  prepare_menu w = Ok (l, Some cur) ->
  selects l s cur ->
  listAndSelectConfig s w = (w, AlreadyActive (Some cur)).
Proof.
  intros _ Hmenu Hsel.
  destruct (prepare_menu_shown w l (Some cur) Hmenu) as [Hl [_ Hshown]].
  assert (Hin : In cur l).
  { destruct Hsel as [i _ Hn | n _ _ _ Hn]; eapply nth_error_In; eauto. }
  destruct (Hshown cur Hin) as [_ [name Hname]].
  pose proof (is_active_itself cur name Hname) as Hact.
  unfold listAndSelectConfig. rewrite Hl.
  destruct (list_is_not_empty l) as [len [Hlen Hnz]].
  { intros ->. contradiction. }
  rewrite Hlen, Hnz, Hmenu. unfold select_handler.
  destruct Hsel as [i Hm Hn | n Hm Hp [Hlo Hhi] Hn]; rewrite Hm.
  - now rewrite Hn, Hact.
  - rewrite Hp.
    replace (n <? 1)%Z with false by (symmetry; apply Z.ltb_ge; lia).
    replace (n >? Z.of_nat (List.length l))%Z with false
      by (symmetry; rewrite Z.gtb_ltb; apply Z.ltb_ge; lia).
    cbn [orb]. now rewrite Hn, Hact.
Qed.

Lemma selecting_active_is_noop_witness :
  getCurrentConfig (sample_world [configA; configB] settingsA WriteOk)
    = Ok (Some configA) /\
  prepare_menu (sample_world [configA; configB] settingsA WriteOk)
    = Ok ([configA; configB], Some configA) /\
  selects [configA; configB] (type_ordinal " 1") configA /\
  listAndSelectConfig (type_ordinal " 1")
    (sample_world [configA; configB] settingsA WriteOk)
  = (sample_world [configA; configB] settingsA WriteOk,
     AlreadyActive (Some configA)).
Proof.
  assert (Hsel : selects [configA; configB] (type_ordinal " 1") configA).
  { apply (by_ordinal _ _ _ 1%Z); try reflexivity. simpl. lia. }
  split; [reflexivity|split; [reflexivity|split; [exact Hsel|]]].
  apply (selecting_active_is_noop
           (sample_world [configA; configB] settingsA WriteOk)
           [configA; configB] configA (type_ordinal " 1"));
    [reflexivity|reflexivity|exact Hsel].
Defined.

(** Selecting the other configuration, in contrast, rewrites the settings. *)
Example selecting_other_switches :
  listAndSelectConfig (type_ordinal "2")
    (sample_world [configA; configB] settingsA WriteOk)
  = (sample_world [configA; configB] settingsB WriteOk, Switched false).
Proof. reflexivity. Qed.

Example ordinal_out_of_range :
  listAndSelectConfig (type_ordinal "3")
    (sample_world [configA; configB] settingsA WriteOk)
  = (sample_world [configA; configB] settingsA WriteOk, InvalidOrdinal) /\
  listAndSelectConfig (type_ordinal "two")
    (sample_world [configA; configB] settingsA WriteOk)
  = (sample_world [configA; configB] settingsA WriteOk, InvalidOrdinal).
Proof. split; reflexivity. Qed.

(** ** Adding a configuration *)

Section Some.

Variable p : json -> result bool.

Lemma js_some_hit (l : list json) (c : json) :
  In c l -> p c = Ok true -> js_some p l <> Ok false.
Proof.
  induction l as [|x rest IH]; simpl; intros Hin Hc; [contradiction|].
  destruct Hin as [->|Hin].
  - rewrite Hc. simpl. discriminate.
  - destruct (p x) as [[|]|e]; simpl; try discriminate. now apply IH.
Qed.

Lemma js_some_miss (l : list json) :
  js_some p l = Ok false -> forall x, In x l -> p x = Ok false.
Proof.
  induction l as [|x rest IH]; simpl; intros H y Hy; [contradiction|].
  destruct (p x) as [[|]|e] eqn:E; simpl in H; try discriminate.
  destruct Hy as [<-|Hy]; auto.
Qed.

End Some.

Lemma validate_name_refuses (w : world) (configs : list json)
  (input : string) (c : json) :
  readApiConfigs w = JArr configs ->
  In c configs ->
  path (Some c) ["name"] = Some (JStr (trim input)) ->
  validate_name w input <> Ok Accepted.
Proof.
  intros Hl Hin Hname. unfold validate_name.
  destruct (is_empty (trim input)); [discriminate|].
  rewrite Hl. cbn [as_array bind].
  assert (Hc : c <> JNull) by (intros ->; discriminate).
  pose proof (js_some_hit (name_matches (Some (JStr (trim input))))
                configs c Hin) as Hhit.
  rewrite name_matches_eq, Hname in Hhit by assumption.
  cbn [strict_eq] in Hhit. rewrite String.eqb_refl in Hhit.
  specialize (Hhit eq_refl).
  destruct (js_some _ configs) as [[|]|e]; cbn [bind];
    congruence || discriminate.
Qed.

Lemma ask_all_refused (validate : string -> result verdict)
  (attempts : list string) :
  (forall line, In line attempts -> validate line <> Ok Accepted) ->
  ask validate attempts = Ok None \/
  exists e, ask validate attempts = Throw e.
Proof.
  induction attempts as [|line later IH]; simpl; intros H; auto.
  destruct (validate line) as [v|e] eqn:E; cbn [bind]; [|eauto].
  destruct v; try (apply IH; intros; apply H; auto).
  exfalso. apply (H line); auto.
Qed.

(** C7. A candidate name that, once trimmed, is the name of an entry of the
    list, letter for letter, is not accepted by the name question; and a
    run of the add workflow in which every name the user tries is taken
    ends without a new configuration, leaving both files as they were. *)
Theorem add_rejects_taken_name (w : world) (configs : list json) :
  readApiConfigs w = JArr configs ->
  (forall input c,
     In c configs ->
     path (Some c) ["name"] = Some (JStr (trim input)) ->
     validate_name w input <> Ok Accepted) /\
  (forall s,
     (forall input, In input (names s) ->
        exists c, In c configs /\
                  path (Some c) ["name"] = Some (JStr (trim input))) ->
     addConfig s w = (w, Abandoned) \/
     exists e, addConfig s w = (w, PromptFailed e)).
Proof.
  intros Hl. split.
  - intros input c. now apply validate_name_refuses.
  - intros s Htaken. unfold addConfig, add_answers.
    destruct (ask_all_refused (validate_name w) (names s)) as [Ha|[e Ha]].
    + intros line Hline. destruct (Htaken line Hline) as [c [Hin Hname]].
      eapply validate_name_refuses; eauto.
    + rewrite Ha. cbn [bind]. auto.
    + rewrite Ha. cbn [bind]. eauto.
Qed.

Lemma add_rejects_taken_name_witness :
  readApiConfigs (sample_world [configA; configB] settingsA WriteOk)
    = JArr [configA; configB] /\
  validate_name (sample_world [configA; configB] settingsA WriteOk) "  B "
    <> Ok Accepted /\
  (addConfig (try_names "A" " B")
     (sample_world [configA; configB] settingsA WriteOk)
   = (sample_world [configA; configB] settingsA WriteOk, Abandoned) \/
   exists e,
     addConfig (try_names "A" " B")
       (sample_world [configA; configB] settingsA WriteOk)
     = (sample_world [configA; configB] settingsA WriteOk, PromptFailed e)).
Proof.
  destruct (add_rejects_taken_name
              (sample_world [configA; configB] settingsA WriteOk)
              [configA; configB] eq_refl) as [Hone Hall].
  split; [reflexivity|split].
  - apply (Hone "  B " configB); [simpl; auto|reflexivity].
  - apply (Hall (try_names "A" " B")).
    intros input [<-|[<-|[]]].
    + exists configA. split; [simpl; auto|reflexivity].
    + exists configB. split; [simpl; auto|reflexivity].
Defined.

(** What the user sees: the message of the taken name, with the name
    trimmed; a name that differs by the case of a letter is accepted. *)
Example taken_name_message :
  validate_name (sample_world [configA; configB] settingsA WriteOk) "  B "
    = Ok (NameTaken "B") /\
  validate_name (sample_world [configA; configB] settingsA WriteOk) "b"
    = Ok Accepted /\
  validate_name (sample_world [configA; configB] settingsA WriteOk) "   "
    = Ok EmptyName.
Proof. repeat split. Qed.

Lemma ask_accepted (validate : string -> result verdict)
  (attempts : list string) (line : string) :
  ask validate attempts = Ok (Some line) -> validate line = Ok Accepted.
Proof.
  induction attempts as [|first later IH]; simpl; [discriminate|].
  destruct (validate first) as [v|e] eqn:E; cbn [bind]; [|discriminate].
  destruct v; auto. intros H. inversion H. now subst.
Qed.

Lemma name_matches_false (configName : jsval) (c : json) :
  name_matches configName c = Ok false ->
  strict_eq (path (Some c) ["name"]) configName = false.
Proof.
  destruct c; cbn; intros H; try discriminate; now injection H.
Qed.

(** X14. A configuration that is added has a name no entry had, and goes
    after the entries, which stay as they were; the settings file is not
    touched. *)
Lemma added_name_is_new (w w' : world) (s : add_script) (newConfig : json) :
  addConfig s w = (w', Added newConfig) ->
  exists configs,
    readApiConfigs w = JArr configs /\
    apiConfigsFile w' = Stored (JArr (configs ++ [newConfig])) /\
    settingsFile w' = settingsFile w /\
    forall c, In c configs ->
      strict_eq (path (Some c) ["name"]) (path (Some newConfig) ["name"])
        = false.
Proof.
  unfold addConfig, add_answers.
  destruct (ask (validate_name w) (names s)) as [[name|]|e] eqn:Hname;
    cbn [bind]; try discriminate.
  destruct (ask validate_baseUrl (baseUrls s)) as [[baseUrl|]|e];
    cbn [bind]; try discriminate.
  destruct (ask validate_authToken (authTokens s)) as [[authToken|]|e];
    cbn [bind]; try discriminate.
  destruct (confirmAdd s); [|discriminate].
  destruct (readApiConfigs w) as [ | | | | configs | ] eqn:Hl;
    cbn [as_array]; try discriminate.
  unfold saveApiConfigs, writeFileSync.
  destruct (fault w); try discriminate.
  intros H. inversion H. subst. cbn.
  exists configs. repeat split.
  intros c Hc.
  apply ask_accepted in Hname. unfold validate_name in Hname.
  destruct (is_empty (trim name)); [discriminate|].
  rewrite Hl in Hname. cbn [as_array bind] in Hname.
  destruct (js_some (name_matches (Some (JStr (trim name)))) configs)
    as [[|]|e] eqn:Hsome; cbn [bind] in Hname; try discriminate.
  apply name_matches_false. eapply js_some_miss; eauto.
Qed.

(** ** When the menu is shown *)

Lemma js_find_total (p : json -> result bool) (l : list json) :
  (forall x, In x l -> exists b, p x = Ok b) ->
  exists r, js_find p l = Ok r.
Proof.
  induction l as [|x rest IH]; simpl; intros H; eauto.
  destruct (H x) as [b Hb]; auto. rewrite Hb. cbn [bind].
  destruct b; eauto.
Qed.

(** The resolver raises nothing on a list without [null] entries. *)
Lemma getCurrentConfig_total (w : world) (l : list json) :
  readApiConfigs w = JArr l ->
  (forall c, In c l -> c <> JNull) ->
  exists currentConfig, getCurrentConfig w = Ok currentConfig.
Proof.
  intros Hl Hnn. unfold getCurrentConfig.
  destruct (settings_is_empty_total (readSettings w)) as [[|] [He Hs]];
    rewrite He; cbn [bind]; eauto.
  specialize (Hs eq_refl). unfold match_config.
  rewrite get_prop_json by assumption. rewrite Hl. cbn [bind as_array].
  destruct (js_find_total (credentials_match (readSettings w)) l)
    as [found Hfound].
  { intros c Hc. rewrite credentials_match_eq; eauto. }
  destruct (truthy (path (Some (readSettings w)) ["_configName"])).
  - destruct (js_find_total
                (name_matches (path (Some (readSettings w)) ["_configName"]))
                l) as [matched Hmatched].
    { intros c Hc. rewrite name_matches_eq; eauto. }
    rewrite Hmatched. cbn [bind].
    destruct (truthy matched); eauto.
    rewrite Hfound. cbn [bind]. eauto.
  - cbn [bind truthy undefined]. rewrite Hfound. cbn [bind]. eauto.
Qed.

Lemma displayable_reads (c : json) :
  displayable c = true ->
  c <> JNull /\
  (exists name, get_prop (Some c) "name" = Ok (Some (JStr name))) /\
  (exists cfg env token url,
     get_prop (Some c) "config" = Ok cfg /\
     get_prop cfg "env" = Ok env /\
     get_prop env "ANTHROPIC_AUTH_TOKEN" = Ok token /\
     get_prop env "ANTHROPIC_BASE_URL" = Ok url).
Proof.
  unfold displayable. intros H.
  apply andb_prop in H. destruct H as [H Henv].
  apply andb_prop in H. destruct H as [Hname Hcfg].
  destruct c as [ | | | | | cf ]; try discriminate.
  split; [discriminate|]. cbn [path] in *. split.
  - cbn [get_prop].
    destruct (assoc "name" cf) as [[]|]; try discriminate. eauto.
  - exists (assoc "config" cf). cbn [get_prop].
    destruct (assoc "config" cf) as [[ | | | | | gf ]|]; try discriminate.
    cbn [path get_prop] in *.
    destruct (assoc "env" gf) as [[]|]; try discriminate;
      do 3 eexists;
      (split; [reflexivity|split; [reflexivity|split; reflexivity]]).
Qed.

(** The menu of the list and remove workflows is shown for every list whose
    entries are displayable, whatever the settings file holds. *)
Lemma menu_is_shown (w : world) (l : list json) :
  readApiConfigs w = JArr l ->
  (forall c, In c l -> displayable c = true) ->
  exists currentConfig, prepare_menu w = Ok (l, currentConfig).
Proof.
  intros Hl Hd.
  destruct (getCurrentConfig_total w l Hl) as [cur Hcur].
  { intros c Hc. now apply displayable_reads, Hd. }
  exists cur. unfold prepare_menu. rewrite Hcur, Hl. cbn [bind as_array].
  assert (Hmax : max_name_length l = Ok tt).
  { clear Hl. induction l as [|c rest IH]; cbn [max_name_length]; auto.
    destruct (displayable_reads c) as [_ [[name Hname] _]];
      [apply Hd; simpl; auto|].
    rewrite Hname. cbn [bind js_length]. apply IH. intros; apply Hd.
    simpl; auto. }
  rewrite Hmax. cbn [bind].
  assert (Hmenu : forall index, exists lines,
             menu_choices cur index l = Ok lines).
  { clear Hl Hmax. induction l as [|c rest IH]; intros index;
      cbn [menu_choices]; eauto.
    destruct (displayable_reads c)
      as [Hc [[name Hname] [cfg [env [token [url [H1 [H2 [H3 H4]]]]]]]]];
      [apply Hd; simpl; auto|].
    unfold menu_line, is_active.
    destruct (truthy cur) eqn:Ht.
    - rewrite Hname. cbn [bind]. rewrite (get_prop_truthy cur "name" Ht).
      cbn [bind pad_end]. rewrite H1. cbn [bind]. rewrite H2. cbn [bind].
      rewrite H3, H4. cbn [bind].
      destruct (IH (fun c' Hc' => Hd c' (or_intror Hc')) (S index))
        as [lines Hlines].
      rewrite Hlines. cbn [bind]. eauto.
    - cbn [bind]. rewrite Hname. cbn [bind pad_end]. rewrite H1. cbn [bind].
      rewrite H2. cbn [bind]. rewrite H3, H4. cbn [bind].
      destruct (IH (fun c' Hc' => Hd c' (or_intror Hc')) (S index))
        as [lines Hlines].
      rewrite Hlines. cbn [bind]. eauto. }
  destruct (Hmenu 0) as [lines Hlines]. now rewrite Hlines.
Qed.

(* ===================================================================== *)
(** * Further properties                                                  *)
(* ===================================================================== *)

(** ** Deep comparison *)

Lemma json_induction (P : json -> Prop) :
  P JNull ->
  (forall b, P (JBool b)) ->
  (forall n, P (JNum n)) ->
  (forall s, P (JStr s)) ->
  (forall items, Forall P items -> P (JArr items)) ->
  (forall fields, Forall (fun kv => P (snd kv)) fields -> P (JObj fields)) ->
  forall v, P v.
Proof.
  intros Hnull Hbool Hnum Hstr Harr Hobj.
  fix IH 1. intros [ | b | n | s | items | fields ].
  - exact Hnull.
  - apply Hbool.
  - apply Hnum.
  - apply Hstr.
  - apply Harr. induction items as [|v rest IHrest]; constructor.
    + apply IH.
    + exact IHrest.
  - apply Hobj. induction fields as [|[k v] rest IHrest]; constructor.
    + apply IH.
    + exact IHrest.
Qed.

Lemma decimal_injective (a b : nat) : decimal a = decimal b -> a = b.
Proof.
  unfold decimal. intros H. apply Unsigned.to_uint_inj.
  assert (Hs : Some (Nat.to_uint a) = Some (Nat.to_uint b)).
  { rewrite <- !NilEmpty.usu. now rewrite H. }
  now inversion Hs.
Qed.

Lemma indexed_keys (items : list json) (i : nat) :
  map fst (indexed i items) = map decimal (seq i (List.length items)).
Proof.
  revert i. induction items as [|v rest IH]; intros i; simpl; auto.
  now rewrite IH.
Qed.

Lemma indexed_length (items : list json) (i : nat) :
  List.length (indexed i items) = List.length items.
Proof.
  revert i. induction items as [|v rest IH]; intros i; simpl; auto.
Qed.

Lemma indexed_values (items : list json) (i : nat) (kv : string * json) :
  In kv (indexed i items) -> In (snd kv) items.
Proof.
  revert i. induction items as [|v rest IH]; intros i; simpl; auto.
  intros [<-|H]; eauto.
Qed.

Lemma indexed_keys_distinct (items : list json) :
  NoDup (map fst (indexed 0 items)).
Proof.
  rewrite indexed_keys. apply Finite.Injective_map_NoDup.
  - intros a b. apply decimal_injective.
  - apply seq_NoDup.
Qed.

Lemma assoc_of_distinct_keys (entries : list (string * json)) (k : string)
  (v : json) :
  NoDup (map fst entries) -> In (k, v) entries -> assoc k entries = Some v.
Proof.
  induction entries as [|[k' v'] rest IH]; simpl; intros Hnd Hin;
    [contradiction|].
  inversion Hnd as [|? ? Hnot Hrest]. subst.
  destruct Hin as [Heq|Hin].
  - inversion Heq. subst. now rewrite String.eqb_refl.
  - destruct (k' =? k) eqn:E; auto.
    apply String.eqb_eq in E. subst k'. exfalso. apply Hnot.
    apply in_map_iff. exists (k, v). auto.
Qed.

Lemma has_key_of_member (entries : list (string * json)) (kv : string * json) :
  In kv entries -> has_key (fst kv) entries = true.
Proof.
  intros Hin. apply existsb_exists. exists kv. split; auto.
  apply String.eqb_refl.
Qed.

(** What [deepEqual] computes on two objects or arrays, in terms of their
    entries. *)
Lemma deepEqual_entries (obj1 obj2 : json) :
  is_container obj1 = true -> is_container obj2 = true ->
  deepEqual obj1 obj2 =
  (List.length (own_entries obj1) =? List.length (own_entries obj2))%nat &&
  forallb (entry_found (own_entries obj2)) (own_entries obj1).
Proof.
  intros H1 H2.
  destruct obj1 as [ | | | | items | fields ]; try discriminate.
  - assert (Hloop : forall i l,
      (fix each (i : nat) (l : list json) : bool :=
         match l with
         | [] => true
         | v :: rest =>
             has_key (decimal i) (own_entries obj2) &&
             match assoc (decimal i) (own_entries obj2) with
             | Some v2 => deepEqual v v2
             | None => false
             end && each (S i) rest
         end) i l
      = forallb (entry_found (own_entries obj2)) (indexed i l)).
    { intros i l. revert i. induction l as [|v rest IH]; intros i; auto.
      cbn [indexed forallb]. rewrite <- IH. reflexivity. }
    cbn [own_entries]. rewrite indexed_length, <- Hloop.
    destruct obj2; try discriminate; reflexivity.
  - assert (Hloop : forall l,
      (fix each (l : list (string * json)) : bool :=
         match l with
         | [] => true
         | (key, v) :: rest =>
             has_key key (own_entries obj2) &&
             match assoc key (own_entries obj2) with
             | Some v2 => deepEqual v v2
             | None => false
             end && each rest
         end) l
      = forallb (entry_found (own_entries obj2)) l).
    { induction l as [|[k v] rest IH]; auto.
      cbn [forallb]. rewrite <- IH. reflexivity. }
    cbn [own_entries]. rewrite <- Hloop.
    destruct obj2; try discriminate; reflexivity.
Qed.

Lemma entries_equal_themselves (entries : list (string * json)) :
  NoDup (map fst entries) ->
  (forall kv, In kv entries -> deepEqual (snd kv) (snd kv) = true) ->
  forallb (entry_found entries) entries = true.
Proof.
  intros Hnd Hrefl. apply forallb_forall. intros [k v] Hin.
  unfold entry_found.
  rewrite (has_key_of_member entries (k, v) Hin). cbn [fst snd andb].
  rewrite (assoc_of_distinct_keys entries k v Hnd Hin).
  apply (Hrefl (k, v) Hin).
Qed.

(** X1. Two copies of a document that has no key twice in an object are
    deeply equal, whatever they nest. *)
Theorem deepEqual_reflexive (v : json) :
  well_formed v -> deepEqual v v = true.
Proof.
  induction v as [ | b | n | s | items IH | fields IH ] using json_induction;
    intros Hwf.
  - reflexivity.
  - simpl. now destruct b.
  - simpl. apply Z.eqb_refl.
  - simpl. apply String.eqb_refl.
  - rewrite deepEqual_entries by reflexivity.
    rewrite Nat.eqb_refl. cbn [andb own_entries].
    apply entries_equal_themselves; [apply indexed_keys_distinct|].
    intros kv Hin. apply indexed_values in Hin.
    inversion Hwf as [ | | | | ? Hitems | ]. subst.
    rewrite Forall_forall in IH, Hitems. auto.
  - rewrite deepEqual_entries by reflexivity.
    rewrite Nat.eqb_refl. cbn [andb own_entries].
    inversion Hwf as [ | | | | | ? Hnd Hfields ]. subst.
    apply entries_equal_themselves; [assumption|].
    intros kv Hin. rewrite Forall_forall in IH, Hfields. auto.
Qed.

Lemma forallb_permutation {A : Type} (f : A -> bool) (l l' : list A) :
  Permutation l l' -> forallb f l = forallb f l'.
Proof.
  induction 1 as [ | x l l' _ IH | x y l | l l' l'' _ IH1 _ IH2 ]; simpl.
  - reflexivity.
  - now rewrite IH.
  - now rewrite !andb_assoc, (andb_comm (f y)).
  - congruence.
Qed.

Lemma forallb_agree {A : Type} (f g : A -> bool) (l : list A) :
  (forall x, f x = g x) -> forallb f l = forallb g l.
Proof.
  intros H. induction l as [|x rest IH]; simpl; auto. now rewrite H, IH.
Qed.

Lemma existsb_permutation {A : Type} (f : A -> bool) (l l' : list A) :
  Permutation l l' -> existsb f l = existsb f l'.
Proof.
  induction 1 as [ | x l l' _ IH | x y l | l l' l'' _ IH1 _ IH2 ]; simpl.
  - reflexivity.
  - now rewrite IH.
  - now rewrite !orb_assoc, (orb_comm (f y)).
  - congruence.
Qed.

Lemma assoc_member (entries : list (string * json)) (k : string) (v : json) :
  assoc k entries = Some v -> In (k, v) entries.
Proof.
  induction entries as [|[k' v'] rest IH]; simpl; [discriminate|].
  destruct (k' =? k) eqn:E; auto.
  apply String.eqb_eq in E. intros H. inversion H. subst. auto.
Qed.

Lemma assoc_absent (entries : list (string * json)) (k : string) :
  assoc k entries = None <-> ~ In k (map fst entries).
Proof.
  induction entries as [|[k' v'] rest IH]; simpl; [tauto|].
  destruct (k' =? k) eqn:E.
  - apply String.eqb_eq in E. split; [discriminate|]. intros H. tauto.
  - apply String.eqb_neq in E. rewrite IH. tauto.
Qed.

Lemma assoc_permutation (entries entries' : list (string * json)) (k : string) :
  NoDup (map fst entries) -> Permutation entries entries' ->
  assoc k entries = assoc k entries'.
Proof.
  intros Hnd Hp.
  assert (Hnd' : NoDup (map fst entries')).
  { eapply Permutation_NoDup; [apply Permutation_map; eassumption|assumption]. }
  destruct (assoc k entries) as [v|] eqn:E.
  - symmetry. apply assoc_of_distinct_keys; auto.
    eapply Permutation_in; eauto using assoc_member.
  - symmetry. apply assoc_absent. apply assoc_absent in E.
    intros Hin. apply E.
    eapply Permutation_in; [apply Permutation_sym, Permutation_map|]; eauto.
Qed.

Lemma settingsA_well_formed : well_formed (JObj settingsA).
Proof.
  unfold settingsA.
  repeat (first
    [ apply wf_str | apply wf_num
    | apply wf_obj
    | apply Forall_cons | apply Forall_nil
    | apply NoDup_cons | apply NoDup_nil
    | (simpl; intuition discriminate) ]).
Qed.

Lemma deepEqual_reflexive_witness :
  well_formed (JObj settingsA) /\ deepEqual (JObj settingsA) (JObj settingsA) = true.
Proof.
  split; [exact settingsA_well_formed|].
  apply (deepEqual_reflexive (JObj settingsA)). exact settingsA_well_formed.
Defined.

(** X2. The order in which two objects list their keys does not count:
    listing the keys of either object in another order leaves the answer of
    [deepEqual] as it is. *)
Theorem deepEqual_ignores_key_order
  (fields fields' other other' : list (string * json)) :
  NoDup (map fst other) ->
  Permutation fields fields' ->
  Permutation other other' ->
  deepEqual (JObj fields) (JObj other) = deepEqual (JObj fields') (JObj other').
Proof.
  intros Hnd Hf Ho.
  rewrite !deepEqual_entries by reflexivity. cbn [own_entries].
  rewrite (Permutation_length Hf), (Permutation_length Ho). f_equal.
  rewrite (forallb_permutation _ _ _ Hf).
  apply forallb_agree. intros [k v]. unfold entry_found, has_key. cbn [fst snd].
  rewrite (existsb_permutation _ _ _ Ho).
  now rewrite (assoc_permutation other other' k Hnd Ho).
Qed.

Lemma deepEqual_ignores_key_order_witness :
  NoDup (map fst [("a", JNum 1); ("b", JStr "x")]) /\
  Permutation [("b", JStr "x"); ("a", JNum 1)] [("b", JStr "x"); ("a", JNum 1)] /\
  Permutation [("a", JNum 1); ("b", JStr "x")] [("b", JStr "x"); ("a", JNum 1)] /\
  deepEqual (JObj [("b", JStr "x"); ("a", JNum 1)])
            (JObj [("a", JNum 1); ("b", JStr "x")]) =
  deepEqual (JObj [("b", JStr "x"); ("a", JNum 1)])
            (JObj [("b", JStr "x"); ("a", JNum 1)]).
Proof.
  assert (Hnd : NoDup (map fst [("a", JNum 1); ("b", JStr "x")])).
  { repeat constructor; simpl; intuition discriminate. }
  split; [exact Hnd|]. split; [apply Permutation_refl|].
  split; [apply perm_swap|].
  apply (deepEqual_ignores_key_order _ _ _ _ Hnd);
    [apply Permutation_refl|apply perm_swap].
Defined.

(** X3. [deepEqual] does not tell an array from the object that has the
    indices of the array for keys: on either side of a comparison, the one
    can be put for the other without changing the answer.  So
    [deepEqual([], {})] and [deepEqual(['a'], {'0': 'a'})] are true. *)
Theorem deepEqual_confuses_array_and_object (items : list json) (v : json) :
  deepEqual (JArr items) v = deepEqual (JObj (indexed 0 items)) v /\
  deepEqual v (JArr items) = deepEqual v (JObj (indexed 0 items)).
Proof.
  split.
  - destruct (is_container v) eqn:Hv.
    + now rewrite !deepEqual_entries by (assumption || reflexivity).
    + destruct v; try discriminate; reflexivity.
  - destruct (is_container v) eqn:Hv.
    + now rewrite !deepEqual_entries by (assumption || reflexivity).
    + destruct v; try discriminate; reflexivity.
Qed.

Example deepEqual_array_and_object :
  deepEqual (JArr []) (JObj []) = true /\
  deepEqual (JArr [JStr "a"; JNum 2])
            (JObj [("1", JNum 2); ("0", JStr "a")]) = true /\
  deepEqual (JObj [("0", JStr "a")]) (JArr [JStr "a"]) = true.
Proof. repeat split. Qed.

(** ** The merger, written out *)

Lemma put_put (k : string) (v1 v2 : json) (fields : list (string * json)) :
  put k v2 (put k v1 fields) = put k v2 fields.
Proof.
  induction fields as [|[k' v'] rest IH]; simpl.
  - now rewrite String.eqb_refl.
  - destruct (k' =? k) eqn:E; simpl; rewrite E; [reflexivity|].
    now rewrite IH.
Qed.

Lemma put_held (k : string) (v : json) (fields : list (string * json)) :
  assoc k fields = Some v -> put k v fields = fields.
Proof.
  induction fields as [|[k' v'] rest IH]; simpl; [discriminate|].
  destruct (k' =? k) eqn:E.
  - intros H. now inversion H.
  - intros H. now rewrite IH.
Qed.

Lemma drop_absent (k : string) (fields : list (string * json)) :
  assoc k fields = None -> drop k fields = fields.
Proof.
  unfold drop. induction fields as [|[k' v'] rest IH]; simpl; auto.
  destruct (k' =? k) eqn:E; [discriminate|].
  intros H. simpl. now rewrite IH.
Qed.

Lemma set_field_held (k : string) (v : jsval) (fields : list (string * json)) :
  assoc k fields = v -> set_field k v fields = fields.
Proof.
  destruct v; simpl; auto using put_held, drop_absent.
Qed.

Lemma merge_settings_written_out (C : jsval) (creds : jsval * jsval)
  (name : jsval) (fields : list (string * json)) :
  extract_credentials C = Ok creds ->
  get_prop C "name" = Ok name ->
  merge_settings C (JObj fields) = Ok (JObj (merged_fields name creds fields)).
Proof.
  intros Hx Hnm. unfold merge_settings, merged_fields.
  cbn [load read_prop content get_prop bind].
  destruct (truthy (assoc "env" fields)) eqn:Ht; cbn [negb].
  - cbn [bind]. rewrite Hx. cbn [bind]. rewrite Hnm.
    cbn [write_prop load content named bind].
    unfold write_nested. cbn [read_prop content get_prop bind].
    rewrite assoc_set_field_other by discriminate.
    destruct (assoc "env" fields) as [[ | b | n | s | items | efs ]|] eqn:He;
      try discriminate.
    5: { cbn [bind read_prop content get_prop write_prop named set_field].
         rewrite assoc_put_same.
         cbn [bind read_prop content get_prop write_prop named set_field
                stringify].
         now rewrite put_put. }
    all: cbn [bind read_prop content get_prop write_prop named];
      rewrite assoc_set_field_other by discriminate; rewrite He;
      reflexivity.
  - cbn [write_prop load content named bind set_field].
    rewrite Hx. cbn [bind]. rewrite Hnm.
    cbn [write_prop load content named bind].
    unfold write_nested. cbn [read_prop content get_prop bind].
    frame_rewrite.
    cbn [bind read_prop content get_prop write_prop named set_field].
    frame_rewrite.
    cbn [bind read_prop content get_prop write_prop named set_field stringify].
    now rewrite put_put.
Qed.

Lemma merged_fields_name (name : jsval) (creds : jsval * jsval)
  (fields : list (string * json)) :
  assoc "_configName" (merged_fields name creds fields) = name.
Proof.
  unfold merged_fields.
  destruct (assoc "env" _) as [[]|];
    rewrite ?assoc_put_other by discriminate;
    apply assoc_set_field_same.
Qed.

Lemma merged_fields_env (name : jsval) (creds : jsval * jsval)
  (fields : list (string * json)) :
  assoc "env" (merged_fields name creds fields) =
  match assoc "env" fields with
  | Some (JObj efs) =>
      Some (JObj (set_field "ANTHROPIC_BASE_URL" (snd creds)
                    (set_field "ANTHROPIC_AUTH_TOKEN" (fst creds) efs)))
  | held =>
      if truthy held then held
      else Some (JObj (set_field "ANTHROPIC_BASE_URL" (snd creds)
                         (set_field "ANTHROPIC_AUTH_TOKEN" (fst creds) [])))
  end.
Proof.
  unfold merged_fields.
  destruct (assoc "env" fields) as [[ | b | n | s | items | efs ]|] eqn:He;
    cbn [truthy].
  6: { rewrite He. now frame_rewrite. }
  all: try destruct b; try destruct (negb (n =? 0)%Z);
    try destruct (negb (s =? EmptyString));
    rewrite ?assoc_put_same, ?He; frame_rewrite; try rewrite He; reflexivity.
Qed.

(** X4. When the switch succeeds on a settings document whose [env] is an
    object, or is missing, the stored document names the selected
    configuration and carries its two credentials: [_configName] is its
    name and [env] holds the token and the URL that were extracted (a value
    that was not there is an absent key). *)
Theorem merger_sets_managed_fields (w : world) (C : json)
  (creds : jsval * jsval) (fields : list (string * json)) :
  readSettings w = JObj fields ->
  extract_credentials (Some C) = Ok creds ->
  fault w = WriteOk ->
  truthy (assoc "env" fields) = false \/
    (exists efs, assoc "env" fields = Some (JObj efs)) ->
  exists fields',
    settingsFile (fst (saveSettingsPreservingHooks (Some C) w))
      = Stored (JObj fields') /\
    snd (saveSettingsPreservingHooks (Some C) w) = Done /\
    assoc "_configName" fields' = path (Some C) ["name"] /\
    path (Some (JObj fields')) ["env"; "ANTHROPIC_AUTH_TOKEN"] = fst creds /\
    path (Some (JObj fields')) ["env"; "ANTHROPIC_BASE_URL"] = snd creds.
Proof.
  intros Hread Hx Hw Henv.
  assert (HC : C <> JNull).
  { intros ->. discriminate. }
  pose proof (merge_settings_written_out (Some C) creds _ fields Hx
                (get_prop_json C "name" HC)) as Hm.
  exists (merged_fields (path (Some C) ["name"]) creds fields).
  split; [|split; [|split]].
  - unfold saveSettingsPreservingHooks. now rewrite Hread, Hm, Hw.
  - unfold saveSettingsPreservingHooks. now rewrite Hread, Hm, Hw.
  - apply merged_fields_name.
  - cbn [path]. rewrite merged_fields_env.
    destruct Henv as [Hf|[efs He]].
    + destruct (assoc "env" fields) as [[]|]; try discriminate;
        cbn [truthy] in Hf |- *; try rewrite Hf;
        (split; [now rewrite assoc_set_field_other, assoc_set_field_same
                   by discriminate
                |now rewrite assoc_set_field_same]).
    + rewrite He.
      split; [now rewrite assoc_set_field_other, assoc_set_field_same
                by discriminate
             |now rewrite assoc_set_field_same].
Qed.

Lemma merger_sets_managed_fields_witness :
  readSettings (sample_world [configA; configB] settingsA WriteOk)
    = JObj settingsA /\
  extract_credentials (Some configB)
    = Ok (Some (JStr "sk-bbbb"), Some (JStr "https://y")) /\
  fault (sample_world [configA; configB] settingsA WriteOk) = WriteOk /\
  (exists efs, assoc "env" settingsA = Some (JObj efs)) /\
  exists fields',
    settingsFile
      (fst (saveSettingsPreservingHooks (Some configB)
              (sample_world [configA; configB] settingsA WriteOk)))
      = Stored (JObj fields') /\
    snd (saveSettingsPreservingHooks (Some configB)
           (sample_world [configA; configB] settingsA WriteOk)) = Done /\
    assoc "_configName" fields' = path (Some configB) ["name"] /\
    path (Some (JObj fields')) ["env"; "ANTHROPIC_AUTH_TOKEN"]
      = Some (JStr "sk-bbbb") /\
    path (Some (JObj fields')) ["env"; "ANTHROPIC_BASE_URL"]
      = Some (JStr "https://y").
Proof.
  split; [reflexivity|split; [reflexivity|split; [reflexivity|]]].
  split; [eexists; reflexivity|].
  apply (merger_sets_managed_fields
           (sample_world [configA; configB] settingsA WriteOk) configB
           (Some (JStr "sk-bbbb"), Some (JStr "https://y")) settingsA);
    try reflexivity.
  right. eexists. reflexivity.
Defined.

Lemma merged_fields_again (name : jsval) (creds : jsval * jsval)
  (fields : list (string * json)) :
  merged_fields name creds (merged_fields name creds fields) =
  merged_fields name creds fields.
Proof.
  pose proof (merged_fields_env name creds fields) as Henv.
  pose proof (merged_fields_name name creds fields) as Hname.
  set (F := merged_fields name creds fields) in *.
  assert (Hobj : forall efs,
    assoc "env" F =
      Some (JObj (set_field "ANTHROPIC_BASE_URL" (snd creds)
                    (set_field "ANTHROPIC_AUTH_TOKEN" (fst creds) efs))) ->
    merged_fields name creds F = F).
  { intros efs He. unfold merged_fields at 1. rewrite He. cbn [truthy].
    rewrite He.
    rewrite (set_field_held "ANTHROPIC_AUTH_TOKEN")
      by now rewrite assoc_set_field_other, assoc_set_field_same
           by discriminate.
    rewrite (set_field_held "ANTHROPIC_BASE_URL")
      by apply assoc_set_field_same.
    rewrite (set_field_held "_configName") by assumption.
    now apply put_held. }
  destruct (assoc "env" fields) as [[ | b | n | s | items | efs ]|] eqn:Hf;
    cbn [truthy] in Henv.
  6: now apply (Hobj efs).
  all: try destruct b; try destruct (negb (n =? 0)%Z) eqn:En;
    try destruct (negb (s =? EmptyString)) eqn:Es;
    try (now apply (Hobj [])).
  all: unfold merged_fields at 1; rewrite Henv; cbn [truthy];
    rewrite ?En, ?Es, Henv; now apply set_field_held.
Qed.

Lemma merge_settings_extracts (C : jsval) (fields : list (string * json))
  (doc : json) :
  merge_settings C (JObj fields) = Ok doc ->
  exists creds name,
    extract_credentials C = Ok creds /\ get_prop C "name" = Ok name.
Proof.
  unfold merge_settings. cbn [load read_prop content get_prop bind].
  destruct (negb (truthy (assoc "env" fields)));
    cbn [write_prop load content named bind];
    destruct (extract_credentials C) as [creds|e]; cbn [bind];
    try discriminate;
    destruct (get_prop C "name") as [name|e]; cbn [bind];
    try discriminate; eauto.
Qed.

(** X5. Switching once more to the configuration that was just switched to
    writes the same settings document again: the second run changes
    nothing. *)
Theorem merger_is_idempotent (w w' : world) (C : jsval)
  (fields : list (string * json)) :
  readSettings w = JObj fields ->
  saveSettingsPreservingHooks C w = (w', Done) ->
  saveSettingsPreservingHooks C w' = (w', Done).
Proof.
  intros Hread. unfold saveSettingsPreservingHooks at 1. rewrite Hread.
  destruct (merge_settings C (JObj fields)) as [doc|e] eqn:Hm;
    [|discriminate].
  destruct (merge_settings_extracts C fields doc Hm)
    as [creds [name [Hx Hnm]]].
  rewrite (merge_settings_written_out C creds name fields Hx Hnm) in Hm.
  inversion Hm. subst doc. clear Hm.
  unfold writeFileSync. destruct (fault w) eqn:Hw; try discriminate.
  intros H. inversion H. subst w'. clear H.
  unfold saveSettingsPreservingHooks. cbn [readSettings with_settings
    settingsFile fault apiConfigsFile].
  rewrite (merge_settings_written_out C creds name _ Hx Hnm).
  rewrite merged_fields_again, Hw. reflexivity.
Qed.

Lemma merger_is_idempotent_witness :
  readSettings (sample_world [configA; configB] settingsA WriteOk)
    = JObj settingsA /\
  saveSettingsPreservingHooks (Some configB)
    (sample_world [configA; configB] settingsA WriteOk)
    = (sample_world [configA; configB] settingsB WriteOk, Done) /\
  saveSettingsPreservingHooks (Some configB)
    (sample_world [configA; configB] settingsB WriteOk)
    = (sample_world [configA; configB] settingsB WriteOk, Done).
Proof.
  split; [reflexivity|split; [reflexivity|]].
  apply (merger_is_idempotent
           (sample_world [configA; configB] settingsA WriteOk)
           (sample_world [configA; configB] settingsB WriteOk)
           (Some configB) settingsA); reflexivity.
Defined.

(** X6. When there is no settings file, or one that cannot be parsed, a
    successful switch stores a document that holds the managed fields and
    nothing else: [env] with the two credentials, then [_configName].
    Whatever an unparsable file held is gone. *)
Theorem merger_creates_settings (w : world) (C : json)
  (creds : jsval * jsval) :
  holds_json (settingsFile w) = false ->
  extract_credentials (Some C) = Ok creds ->
  fault w = WriteOk ->
  saveSettingsPreservingHooks (Some C) w =
    (with_settings w
       (Stored
          (JObj
             (("env",
               JObj (set_field "ANTHROPIC_BASE_URL" (snd creds)
                       (set_field "ANTHROPIC_AUTH_TOKEN" (fst creds) [])))
              :: match path (Some C) ["name"] with
                 | Some name => [("_configName", name)]
                 | None => []
                 end))),
     Done).
Proof.
  intros Hfile Hx Hw.
  assert (HC : C <> JNull) by (intros ->; discriminate).
  assert (Hread : readSettings w = JObj [("env", JObj [])]).
  { unfold readSettings. destruct (settingsFile w); try discriminate;
      reflexivity. }
  unfold saveSettingsPreservingHooks. rewrite Hread.
  rewrite (merge_settings_written_out (Some C) creds _ _ Hx
             (get_prop_json C "name" HC)).
  rewrite Hw. cbn [writeFileSync]. do 3 f_equal.
  unfold merged_fields. cbn [assoc String.eqb Ascii.eqb Bool.eqb truthy].
  destruct (path (Some C) ["name"]); reflexivity.
Qed.

Lemma merger_creates_settings_witness :
  holds_json
    (settingsFile {| apiConfigsFile := Stored (JArr [configFlat]);
                     settingsFile := Garbled; fault := WriteOk |}) = false /\
  extract_credentials (Some configFlat)
    = Ok (Some (JStr "sk-ffff"), Some (JStr "https://f")) /\
  saveSettingsPreservingHooks (Some configFlat)
    {| apiConfigsFile := Stored (JArr [configFlat]);
       settingsFile := Garbled; fault := WriteOk |} =
  (sample_world [configFlat]
     [("env", JObj [("ANTHROPIC_AUTH_TOKEN", JStr "sk-ffff");
                    ("ANTHROPIC_BASE_URL", JStr "https://f")]);
      ("_configName", JStr "F")] WriteOk, Done).
Proof.
  split; [reflexivity|split; [reflexivity|]].
  apply (merger_creates_settings
           {| apiConfigsFile := Stored (JArr [configFlat]);
              settingsFile := Garbled; fault := WriteOk |}
           configFlat (Some (JStr "sk-ffff"), Some (JStr "https://f")));
    reflexivity.
Defined.

(** ** Switching, then resolving *)

(** X7. The settings document is an object.  After a successful switch to
    an entry of the list that has a non-empty name, the first entry of that
    name, the resolver reports that entry as the active one, whatever the
    fields of the settings object were before. *)
Theorem switch_then_resolve (w : world) (fields : list (string * json))
  (pre post : list json) (C : json) (name : string)
  (creds : jsval * jsval) :
  readSettings w = JObj fields ->
  readApiConfigs w = JArr (pre ++ C :: post) ->
  path (Some C) ["name"] = Some (JStr name) ->
  name <> EmptyString ->
  (forall d, In d pre ->
     d <> JNull /\ path (Some d) ["name"] <> Some (JStr name)) ->
  extract_credentials (Some C) = Ok creds ->
  fault w = WriteOk ->
  exists w',
    saveSettingsPreservingHooks (Some C) w = (w', Done) /\
    getCurrentConfig w' = Ok (Some C).
Proof.
  intros Hread Hl Hname Hne Hpre Hx Hw.
  assert (HC : C <> JNull) by (intros ->; discriminate).
  pose proof (merge_settings_written_out (Some C) creds _ fields Hx
                (get_prop_json C "name" HC)) as Hm.
  rewrite Hname in Hm.
  set (F := merged_fields (Some (JStr name)) creds fields) in *.
  exists (with_settings w (Stored (JObj F))). split.
  - unfold saveSettingsPreservingHooks. now rewrite Hread, Hm, Hw.
  - assert (Hcn : assoc "_configName" F = Some (JStr name))
      by apply merged_fields_name.
    rewrite (getCurrentConfig_nonempty _ F) by
      (try reflexivity; intros HF; rewrite HF in Hcn; discriminate).
    assert (Hl' : readApiConfigs (with_settings w (Stored (JObj F)))
                  = JArr (pre ++ C :: post)) by exact Hl.
    rewrite Hl'. unfold match_config. cbn [get_prop bind]. rewrite Hcn.
    assert (Ht : truthy (Some (JStr name)) = true).
    { cbn. destruct (name =? EmptyString) eqn:E; auto.
      apply String.eqb_eq in E. contradiction. }
    rewrite Ht. cbn [as_array bind].
    rewrite js_find_first.
    + cbn [bind]. destruct C; try discriminate; reflexivity.
    + intros d Hd. destruct (Hpre d Hd) as [Hnn Hdiff].
      rewrite name_matches_eq by assumption. f_equal.
      destruct (path (Some d) ["name"]) as [[]|]; cbn; auto.
      destruct (s =? name) eqn:E; auto.
      apply String.eqb_eq in E. subst. congruence.
    + rewrite name_matches_eq by assumption. rewrite Hname. cbn.
      now rewrite String.eqb_refl.
Qed.

Lemma switch_then_resolve_witness :
  readSettings (sample_world [configA; configB] settingsA WriteOk)
    = JObj settingsA /\
  readApiConfigs (sample_world [configA; configB] settingsA WriteOk)
    = JArr ([configA] ++ configB :: []) /\
  path (Some configB) ["name"] = Some (JStr "B") /\
  "B" <> EmptyString /\
  extract_credentials (Some configB)
    = Ok (Some (JStr "sk-bbbb"), Some (JStr "https://y")) /\
  fault (sample_world [configA; configB] settingsA WriteOk) = WriteOk /\
  exists w',
    saveSettingsPreservingHooks (Some configB)
      (sample_world [configA; configB] settingsA WriteOk) = (w', Done) /\
    getCurrentConfig w' = Ok (Some configB).
Proof.
  repeat (split; [reflexivity || discriminate|]).
  apply (switch_then_resolve
           (sample_world [configA; configB] settingsA WriteOk) settingsA
           [configA] [] configB "B"
           (Some (JStr "sk-bbbb"), Some (JStr "https://y")));
    try reflexivity; try discriminate.
  intros d [<-|[]]. split; discriminate.
Defined.

(** ** What the resolver returns *)

Lemma match_config_sound (settings apiConfigs : json) (r : jsval) :
  settings <> JNull ->
  match_config settings apiConfigs = Ok r ->
  r = null \/
  exists l c,
    apiConfigs = JArr l /\ In c l /\ r = Some c /\ c <> JNull /\
    (name_equal settings c = true \/
     truthy (path (Some c) ["config"]) = true /\
     value_equal settings c = true).
Proof.
  intros Hs. unfold match_config. rewrite get_prop_json by assumption.
  cbn [bind].
  destruct apiConfigs as [ | | | | l | ]; cbn [as_array bind];
    try (destruct (truthy (path (Some settings) ["_configName"]));
         cbn [bind truthy undefined]; discriminate).
  assert (Hfallback : forall r,
    (found <- js_find (credentials_match settings) l ;;
     Ok (js_or found null)) = Ok r ->
    r = null \/
    exists l0 c,
      JArr l = JArr l0 /\ In c l0 /\ r = Some c /\ c <> JNull /\
      (name_equal settings c = true \/
       truthy (path (Some c) ["config"]) = true /\
       value_equal settings c = true)).
  { intros r0.
    destruct (js_find (credentials_match settings) l) as [found|e] eqn:Hg;
      cbn [bind]; [|discriminate].
    unfold js_or. destruct (truthy found) eqn:Hfound;
      intros H; inversion H; auto. subst r0.
    destruct found as [c|]; [|discriminate].
    apply js_find_found in Hg. destruct Hg as [Hin Hg].
    assert (Hc : c <> JNull) by (intros ->; discriminate).
    rewrite credentials_match_eq in Hg by assumption.
    injection Hg as Hg. apply andb_prop in Hg.
    right. exists l, c. repeat split; auto. }
  destruct (truthy (path (Some settings) ["_configName"])) eqn:Hset.
  - destruct (js_find _ l) as [matched|e] eqn:Hf at 1; cbn [bind];
      [|discriminate].
    destruct (truthy matched) eqn:Hm; [|apply Hfallback].
    intros H. inversion H. subst r.
    destruct matched as [c|]; [|discriminate].
    apply js_find_found in Hf. destruct Hf as [Hin Hf].
    assert (Hc : c <> JNull) by (intros ->; discriminate).
    rewrite name_matches_eq in Hf by assumption. injection Hf as Hf.
    right. exists l, c. repeat split; auto.
    left. unfold name_equal. apply andb_true_intro.
    split; [exact Hset|exact Hf].
  - cbn [bind truthy undefined]. apply Hfallback.
Qed.

(** X8. Whatever the resolver returns is [null] or an entry of the stored
    list that matches the settings: by its name, [_configName] being set,
    or, having a [config], by the two credentials under [config.env]. *)
Theorem resolver_returns_a_match (w : world) (r : jsval) :
  getCurrentConfig w = Ok r ->
  r = null \/
  exists l c,
    readApiConfigs w = JArr l /\ In c l /\ r = Some c /\ c <> JNull /\
    (name_equal (readSettings w) c = true \/
     truthy (path (Some c) ["config"]) = true /\
     value_equal (readSettings w) c = true).
Proof.
  unfold getCurrentConfig.
  destruct (settings_is_empty_total (readSettings w)) as [[|] [He Hs]];
    rewrite He; cbn [bind].
  - intros H. inversion H. auto.
  - apply match_config_sound. auto.
Qed.

Lemma resolver_returns_a_match_witness :
  getCurrentConfig (sample_world [configA; configB] settingsStale WriteOk)
    = Ok (Some configB) /\
  (Some configB = null \/
   exists l c,
     readApiConfigs (sample_world [configA; configB] settingsStale WriteOk)
       = JArr l /\ In c l /\ Some configB = Some c /\ c <> JNull /\
     (name_equal
        (readSettings (sample_world [configA; configB] settingsStale WriteOk))
        c = true \/
      truthy (path (Some c) ["config"]) = true /\
      value_equal
        (readSettings (sample_world [configA; configB] settingsStale WriteOk))
        c = true)).
Proof.
  split; [reflexivity|].
  apply (resolver_returns_a_match
           (sample_world [configA; configB] settingsStale WriteOk)
           (Some configB)).
  reflexivity.
Defined.

(** X9. The settings document is an object with at least one key.  When
    the name it carries, if any, is the name of no entry, the resolver
    falls back on the credentials and returns the first entry that has a
    [config] and the two credentials of the settings. *)
Theorem resolver_falls_back_on_credentials (w : world)
  (fields : list (string * json)) (pre post : list json) (c : json) :
  readSettings w = JObj fields ->
  fields <> [] ->
  readApiConfigs w = JArr (pre ++ c :: post) ->
  (forall d, In d (pre ++ c :: post) ->
     d <> JNull /\ name_equal (JObj fields) d = false) ->
  (forall d, In d pre ->
     truthy (path (Some d) ["config"]) && value_equal (JObj fields) d = false) ->
  truthy (path (Some c) ["config"]) = true ->
  value_equal (JObj fields) c = true ->
  getCurrentConfig w = Ok (Some c).
Proof.
  intros Hread Hne Hl Hnames Hpre Hcfg Hval.
  rewrite (getCurrentConfig_nonempty w fields Hread Hne), Hl.
  unfold match_config. cbn [get_prop bind as_array].
  assert (Hname :
    (if truthy (assoc "_configName" fields)
     then js_find (name_matches (assoc "_configName" fields))
            (pre ++ c :: post)
     else Ok undefined) = Ok undefined).
  { destruct (truthy (assoc "_configName" fields)) eqn:Ht; [|reflexivity].
    apply js_find_none. intros d Hd. destruct (Hnames d Hd) as [Hd0 Hn].
    rewrite name_matches_eq by assumption.
    unfold name_equal in Hn. cbn [path] in Hn. rewrite Ht in Hn.
    cbn [andb] in Hn. cbn [path]. now rewrite Hn. }
  rewrite Hname. cbn [bind truthy undefined].
  rewrite js_find_first.
  - cbn [bind]. unfold js_or.
    destruct c; try discriminate; reflexivity.
  - intros d Hd.
    destruct (Hnames d) as [Hd0 _]; [apply in_or_app; auto|].
    rewrite credentials_match_eq by (assumption || discriminate).
    now rewrite (Hpre d Hd).
  - destruct (Hnames c) as [Hc0 _]; [apply in_or_app; simpl; auto|].
    rewrite credentials_match_eq by (assumption || discriminate).
    now rewrite Hcfg, Hval.
Qed.

Lemma resolver_falls_back_on_credentials_witness :
  readSettings (sample_world [configA; configB] settingsGone WriteOk)
    = JObj settingsGone /\
  settingsGone <> [] /\
  readApiConfigs (sample_world [configA; configB] settingsGone WriteOk)
    = JArr ([configA] ++ configB :: []) /\
  truthy (path (Some configB) ["config"]) = true /\
  value_equal (JObj settingsGone) configB = true /\
  getCurrentConfig (sample_world [configA; configB] settingsGone WriteOk)
    = Ok (Some configB).
Proof.
  repeat (split; [reflexivity || discriminate|]).
  apply (resolver_falls_back_on_credentials
           (sample_world [configA; configB] settingsGone WriteOk)
           settingsGone [configA] [] configB);
    try reflexivity; try discriminate.
  - intros d [<-|[<-|[]]]; split; discriminate || reflexivity.
  - intros d [<-|[]]. reflexivity.
Defined.

(** ** Which file a workflow writes *)

Lemma merger_keeps_list (C : jsval) (w : world) :
  apiConfigsFile (fst (saveSettingsPreservingHooks C w)) = apiConfigsFile w.
Proof.
  unfold saveSettingsPreservingHooks, writeFileSync.
  destruct (merge_settings C (readSettings w)); [|reflexivity].
  destruct (fault w); reflexivity.
Qed.

Lemma saveApiConfigs_keeps_settings (doc : json) (w : world) :
  settingsFile (fst (saveApiConfigs doc w)) = settingsFile w.
Proof.
  unfold saveApiConfigs, writeFileSync. destruct (fault w); reflexivity.
Qed.

Lemma processSelectedConfig_keeps_list (C : jsval) (s : list_script)
  (w : world) :
  apiConfigsFile (fst (processSelectedConfig C s w)) = apiConfigsFile w.
Proof.
  unfold processSelectedConfig. destruct (confirmSwitch s); [|reflexivity].
  pose proof (merger_keeps_list C w) as H.
  destruct (saveSettingsPreservingHooks C w) as [w' [|code e]]; cbn in H |- *;
    [|assumption].
  destruct (bind _ _); assumption.
Qed.

Lemma select_handler_keeps_list (l : list json) (cur : jsval)
  (s : list_script) (w : world) :
  apiConfigsFile (fst (select_handler l cur s w)) = apiConfigsFile w.
Proof.
  unfold select_handler. destruct (menu s).
  - destruct (is_active cur (nth_error l index)) as [[|]|e];
      auto using processSelectedConfig_keeps_list.
  - destruct (parseInt (typed s)) as [n|]; [|reflexivity].
    destruct (_ || _); [reflexivity|].
    destruct (is_active cur _) as [[|]|e];
      auto using processSelectedConfig_keeps_list.
Qed.

(** X10. Each workflow writes one file at most: the list workflow never
    changes the configuration list, and the add and remove workflows never
    change the settings file, however they end (so that removing the
    active entry leaves the settings naming it). *)
Theorem workflows_write_one_file (w : world) :
  (forall s, apiConfigsFile (fst (listAndSelectConfig s w)) = apiConfigsFile w) /\
  (forall s, settingsFile (fst (addConfig s w)) = settingsFile w) /\
  (forall s, settingsFile (fst (removeConfig s w)) = settingsFile w).
Proof.
  repeat split; intros s.
  - unfold listAndSelectConfig.
    destruct (js_length _) as [len|e]; [|reflexivity].
    destruct (strict_eq len _); [reflexivity|].
    destruct (prepare_menu w) as [[l cur]|e]; [|reflexivity].
    apply select_handler_keeps_list.
  - unfold addConfig.
    destruct (add_answers s w) as [[[[name baseUrl] authToken]|]|e];
      try reflexivity.
    destruct (confirmAdd s); [|reflexivity].
    destruct (as_array (readApiConfigs w)) as [l|e]; [|reflexivity].
    pose proof (saveApiConfigs_keeps_settings
                  (JArr (l ++ [new_config name baseUrl authToken (model s)]))
                  w) as H.
    destruct (saveApiConfigs _ w) as [w' [|code e]]; exact H.
  - unfold removeConfig.
    destruct (js_length _) as [len|e]; [|reflexivity].
    destruct (strict_eq len _); [reflexivity|].
    destruct (prepare_menu w) as [[l cur]|e]; [|reflexivity].
    unfold remove_handler.
    destruct (is_active cur _) as [b|e]; [|reflexivity].
    destruct (confirmRemove s); [|reflexivity].
    pose proof (saveApiConfigs_keeps_settings
                  (JArr (splice1 (pick s) l)) w) as H.
    destruct (saveApiConfigs _ w) as [w' [|code e]]; [|exact H].
    destruct (get_prop _ _); exact H.
Qed.

(** ** Ordinals *)

Lemma to_uint_not_nil (n : nat) : Nat.to_uint n <> Decimal.Nil.
Proof.
  rewrite <- (Unsigned.of_to n) at 1. rewrite Unsigned.to_of.
  apply DecimalFacts.unorm_nonnil.
Qed.

Lemma parse_digits_of_uint (d : Decimal.uint) (a : nat) :
  parse_digits (Some (Z.of_nat a)) (NilEmpty.string_of_uint d) =
  Some (Z.of_nat (Nat.of_uint_acc d a)).
Proof.
  revert a. induction d; intros a; cbn [NilEmpty.string_of_uint parse_digits
    Nat.of_uint_acc]; try reflexivity;
    match goal with
    | |- context [digit_of ?c] =>
        let v := eval vm_compute in (digit_of c) in
        change (digit_of c) with v
    end;
    cbv iota; rewrite <- IHd; f_equal; f_equal;
    rewrite Nat.tail_mul_spec; lia.
Qed.

Lemma parse_digits_fresh (d : Decimal.uint) :
  d <> Decimal.Nil ->
  parse_digits None (NilEmpty.string_of_uint d) =
  parse_digits (Some 0%Z) (NilEmpty.string_of_uint d).
Proof.
  destruct d; intros H; [congruence| | | | | | | | | | ]; reflexivity.
Qed.

(** [parseInt] reads back the decimal text of a number. *)
Lemma parseInt_decimal (n : nat) : parseInt (decimal n) = Some (Z.of_nat n).
Proof.
  unfold decimal.
  assert (Hparse : parse_digits None (NilEmpty.string_of_uint (Nat.to_uint n))
                   = Some (Z.of_nat n)).
  { rewrite parse_digits_fresh by apply to_uint_not_nil.
    change 0%Z with (Z.of_nat 0). rewrite parse_digits_of_uint.
    change (Nat.of_uint_acc (Nat.to_uint n) 0) with (Nat.of_uint (Nat.to_uint n)).
    now rewrite Unsigned.of_to. }
  unfold parseInt.
  pose proof (to_uint_not_nil n) as Hnn.
  destruct (Nat.to_uint n); try congruence; exact Hparse.
Qed.

(** X11. With the menu of the list workflow on the screen, typing the
    ordinal that is shown on the line of an entry does what picking that
    line does: the same report and the same files. *)
Theorem typed_ordinal_is_menu_pick (w : world) (l : list json) (cur : jsval)
  (i : nat) (ignored : string) (confirm run : bool) :
  prepare_menu w = Ok (l, cur) ->
  i < List.length l ->
  listAndSelectConfig
    {| menu := InputOrdinal; typed := ordinal_text i;
       confirmSwitch := confirm; runClaude := run |} w =
  listAndSelectConfig
    {| menu := Picked i; typed := ignored;
       confirmSwitch := confirm; runClaude := run |} w.
Proof.
  intros Hmenu Hi.
  destruct (prepare_menu_shown w l cur Hmenu) as [Hl [_ Hshown]].
  destruct (nth_error l i) as [x|] eqn:Hx;
    [|apply nth_error_None in Hx; lia].
  destruct (Hshown x (nth_error_In l i Hx)) as [[b Hb] _].
  unfold listAndSelectConfig. rewrite Hl.
  destruct (js_length (Some (JArr l))) as [len|e]; [|reflexivity].
  destruct (strict_eq len (Some (JNum 0))); [reflexivity|].
  rewrite Hmenu. unfold select_handler. cbn [menu typed].
  unfold ordinal_text. rewrite parseInt_decimal.
  replace (Z.of_nat (i + 1) <? 1)%Z with false
    by (symmetry; apply Z.ltb_ge; lia).
  replace (Z.of_nat (i + 1) >? Z.of_nat (List.length l))%Z with false
    by (symmetry; rewrite Z.gtb_ltb; apply Z.ltb_ge; lia).
  cbn [orb].
  replace (Z.to_nat (Z.of_nat (i + 1) - 1)) with i by lia.
  rewrite Hx, Hb. destruct b; reflexivity.
Qed.

Lemma typed_ordinal_is_menu_pick_witness :
  prepare_menu (sample_world [configA; configB] settingsA WriteOk)
    = Ok ([configA; configB], Some configA) /\
  1 < List.length [configA; configB] /\
  listAndSelectConfig
    {| menu := InputOrdinal; typed := "2";
       confirmSwitch := true; runClaude := false |}
    (sample_world [configA; configB] settingsA WriteOk) =
  listAndSelectConfig
    {| menu := Picked 1; typed := EmptyString;
       confirmSwitch := true; runClaude := false |}
    (sample_world [configA; configB] settingsA WriteOk).
Proof.
  split; [reflexivity|split; [simpl; lia|]].
  apply (typed_ordinal_is_menu_pick
           (sample_world [configA; configB] settingsA WriteOk)
           [configA; configB] (Some configA) 1 EmptyString true false);
    [reflexivity|simpl; lia].
Defined.

(** X12. With the menu on the screen, a typed line that is no number, or a
    number below 1 or above the length of the list, is refused: the
    workflow reports the invalid ordinal and writes nothing. *)
Theorem invalid_ordinal_is_refused (w : world) (l : list json) (cur : jsval)
  (s : list_script) :
  prepare_menu w = Ok (l, cur) ->
  l <> [] ->
  menu s = InputOrdinal ->
  (forall n, parseInt (typed s) = Some n ->
     (n < 1 \/ Z.of_nat (List.length l) < n)%Z) ->
  listAndSelectConfig s w = (w, InvalidOrdinal).
Proof.
  intros Hmenu Hne Hm Hbad.
  destruct (prepare_menu_shown w l cur Hmenu) as [Hl _].
  unfold listAndSelectConfig. rewrite Hl.
  destruct (list_is_not_empty l Hne) as [len [Hlen Hnz]].
  rewrite Hlen, Hnz, Hmenu. unfold select_handler. rewrite Hm.
  destruct (parseInt (typed s)) as [n|]; [|reflexivity].
  destruct (Hbad n eq_refl) as [Hlo|Hhi].
  - replace (n <? 1)%Z with true by (symmetry; apply Z.ltb_lt; lia).
    reflexivity.
  - replace (n >? Z.of_nat (List.length l))%Z with true
      by (symmetry; rewrite Z.gtb_ltb; apply Z.ltb_lt; lia).
    now rewrite orb_true_r.
Qed.

Lemma invalid_ordinal_is_refused_witness :
  prepare_menu (sample_world [configA; configB] settingsA WriteOk)
    = Ok ([configA; configB], Some configA) /\
  [configA; configB] <> [] /\
  menu (type_ordinal "0") = InputOrdinal /\
  parseInt (typed (type_ordinal "0")) = Some 0%Z /\
  listAndSelectConfig (type_ordinal "0")
    (sample_world [configA; configB] settingsA WriteOk)
  = (sample_world [configA; configB] settingsA WriteOk, InvalidOrdinal).
Proof.
  split; [reflexivity|split; [discriminate|split; [reflexivity|]]].
  split; [reflexivity|].
  apply (invalid_ordinal_is_refused
           (sample_world [configA; configB] settingsA WriteOk)
           [configA; configB] (Some configA) (type_ordinal "0"));
    try reflexivity; try discriminate.
  intros n H. inversion H. lia.
Defined.

(** ** A list that cannot be read *)

(** X13. A configuration file that is missing, or that cannot be parsed,
    reads as the empty list: like an empty array, it makes the list and
    remove workflows report that there is no configuration and write
    nothing, and the resolver return [null]. *)
Theorem unreadable_list_is_empty (w : world) :
  holds_json (apiConfigsFile w) = false \/
    apiConfigsFile w = Stored (JArr []) ->
  (forall s, listAndSelectConfig s w = (w, NoConfigs)) /\
  (forall s, removeConfig s w = (w, NoConfigs)) /\
  getCurrentConfig w = Ok null.
Proof.
  intros H.
  assert (Hl : readApiConfigs w = JArr []).
  { unfold readApiConfigs. destruct H as [H| ->]; [|reflexivity].
    destruct (apiConfigsFile w); try discriminate; reflexivity. }
  repeat split.
  - intros s. unfold listAndSelectConfig. now rewrite Hl.
  - intros s. unfold removeConfig. now rewrite Hl.
  - apply (resolver_no_match w [] Hl). intros c [].
Qed.

Lemma unreadable_list_is_empty_witness :
  holds_json
    (apiConfigsFile {| apiConfigsFile := Garbled;
                       settingsFile := Stored (JObj settingsA);
                       fault := WriteOk |}) = false /\
  removeConfig remove_second
    {| apiConfigsFile := Garbled; settingsFile := Stored (JObj settingsA);
       fault := WriteOk |}
  = ({| apiConfigsFile := Garbled; settingsFile := Stored (JObj settingsA);
        fault := WriteOk |}, NoConfigs).
Proof.
  split; [reflexivity|].
  apply (unreadable_list_is_empty
           {| apiConfigsFile := Garbled;
              settingsFile := Stored (JObj settingsA); fault := WriteOk |}).
  left. reflexivity.
Defined.

(** ** What the add workflow stores *)

Lemma added_name_is_new_witness :
  addConfig add_third (sample_world [configA; configB] settingsA WriteOk)
    = (sample_world [configA; configB; configC] settingsA WriteOk,
       Added configC) /\
  exists configs,
    readApiConfigs (sample_world [configA; configB] settingsA WriteOk)
      = JArr configs /\
    apiConfigsFile (sample_world [configA; configB; configC] settingsA WriteOk)
      = Stored (JArr (configs ++ [configC])) /\
    settingsFile (sample_world [configA; configB; configC] settingsA WriteOk)
      = settingsFile (sample_world [configA; configB] settingsA WriteOk) /\
    forall c, In c configs ->
      strict_eq (path (Some c) ["name"]) (path (Some configC) ["name"])
        = false.
Proof.
  split; [reflexivity|].
  apply (added_name_is_new
           (sample_world [configA; configB] settingsA WriteOk)
           (sample_world [configA; configB; configC] settingsA WriteOk)
           add_third configC).
  reflexivity.
Defined.

Lemma addConfig_added (w w' : world) (s : add_script) (newConfig : json) :
  addConfig s w = (w', Added newConfig) ->
  exists configs name baseUrl authToken,
    readApiConfigs w = JArr configs /\
    validate_name w name = Ok Accepted /\
    validate_baseUrl baseUrl = Ok Accepted /\
    validate_authToken authToken = Ok Accepted /\
    newConfig = new_config name baseUrl authToken (model s) /\
    w' = with_apiConfigs w (Stored (JArr (configs ++ [newConfig]))).
Proof.
  unfold addConfig, add_answers.
  destruct (ask (validate_name w) (names s)) as [[name|]|e] eqn:Hname;
    cbn [bind]; try discriminate.
  destruct (ask validate_baseUrl (baseUrls s)) as [[baseUrl|]|e] eqn:Hurl;
    cbn [bind]; try discriminate.
  destruct (ask validate_authToken (authTokens s)) as [[authToken|]|e]
    eqn:Htoken; cbn [bind]; try discriminate.
  destruct (confirmAdd s); [|discriminate].
  destruct (readApiConfigs w) as [ | | | | configs | ] eqn:Hl;
    cbn [as_array]; try discriminate.
  unfold saveApiConfigs, writeFileSync.
  destruct (fault w); try discriminate.
  intros H. inversion H. subst.
  exists configs, name, baseUrl, authToken.
  repeat split; eauto using ask_accepted.
Qed.

Lemma validate_name_accepted (w : world) (configs : list json)
  (input : string) :
  readApiConfigs w = JArr configs ->
  validate_name w input = Ok Accepted ->
  is_empty (trim input) = false /\
  forall c, In c configs ->
    strict_eq (path (Some c) ["name"]) (Some (JStr (trim input))) = false.
Proof.
  intros Hl. unfold validate_name.
  destruct (is_empty (trim input)); [discriminate|].
  rewrite Hl. cbn [as_array bind].
  destruct (js_some (name_matches (Some (JStr (trim input)))) configs)
    as [[|]|e] eqn:Hsome; cbn [bind]; try discriminate.
  intros _. split; [reflexivity|]. intros c Hc.
  apply name_matches_false. eapply js_some_miss; eauto.
Qed.

Lemma names_distinct_snoc (l : list json) (x : json) :
  names_distinct l ->
  (forall c, In c l ->
     strict_eq (path (Some c) ["name"]) (path (Some x) ["name"]) = false) ->
  names_distinct (l ++ [x]).
Proof.
  unfold names_distinct. intros Hl Hx.
  induction Hl as [|c rest Hc Hrest IH]; simpl.
  - repeat constructor.
  - constructor.
    + apply Forall_app. split; [assumption|].
      constructor; [|constructor]. apply Hx. simpl. auto.
    + apply IH. intros d Hd. apply Hx. simpl. auto.
Qed.

(** X15. Adding keeps the names of the list distinct: when no two entries
    had the same name before a configuration was added, no two have the
    same name after. *)
Theorem add_keeps_names_distinct (w w' : world) (s : add_script)
  (newConfig : json) (configs : list json) :
  readApiConfigs w = JArr configs ->
  names_distinct configs ->
  addConfig s w = (w', Added newConfig) ->
  readApiConfigs w' = JArr (configs ++ [newConfig]) /\
  names_distinct (configs ++ [newConfig]).
Proof.
  intros Hl Hd Hadd.
  destruct (addConfig_added w w' s newConfig Hadd)
    as [configs' [name [baseUrl [authToken [Hl' [Hv [_ [_ [Hnew Hw']]]]]]]]].
  rewrite Hl in Hl'. inversion Hl'. subst configs'.
  split; [now rewrite Hw'|].
  apply names_distinct_snoc; [assumption|].
  destruct (validate_name_accepted w configs name Hl Hv) as [_ Hfresh].
  intros c Hc. rewrite Hnew. exact (Hfresh c Hc).
Qed.

Lemma add_keeps_names_distinct_witness :
  readApiConfigs (sample_world [configA; configB] settingsA WriteOk)
    = JArr [configA; configB] /\
  names_distinct [configA; configB] /\
  addConfig add_third (sample_world [configA; configB] settingsA WriteOk)
    = (sample_world [configA; configB; configC] settingsA WriteOk,
       Added configC) /\
  names_distinct ([configA; configB] ++ [configC]).
Proof.
  assert (Hd : names_distinct [configA; configB]).
  { repeat constructor. }
  split; [reflexivity|split; [exact Hd|split; [reflexivity|]]].
  apply (add_keeps_names_distinct
           (sample_world [configA; configB] settingsA WriteOk)
           (sample_world [configA; configB; configC] settingsA WriteOk)
           add_third configC [configA; configB] eq_refl Hd eq_refl).
Defined.

(** ** Trimming *)

Lemma trim_end_step (c : ascii) (rest : string) :
  trim_end (String c rest) =
  match trim_end rest with
  | EmptyString => if is_space c then EmptyString else String c EmptyString
  | kept => String c kept
  end.
Proof. reflexivity. Qed.

Lemma trim_end_again (s : string) : trim_end (trim_end s) = trim_end s.
Proof.
  induction s as [|c rest IH]; [reflexivity|].
  rewrite trim_end_step. destruct (trim_end rest) as [|d kept] eqn:E.
  - destruct (is_space c) eqn:Ec; [reflexivity|].
    rewrite trim_end_step. cbn [trim_end]. now rewrite Ec.
  - rewrite trim_end_step, IH. reflexivity.
Qed.

Lemma trim_start_clean (s : string) :
  match s with
  | EmptyString => True
  | String c _ => is_space c = false
  end -> trim_start s = s.
Proof.
  destruct s as [|c rest]; [reflexivity|]. simpl. now intros ->.
Qed.

Lemma trim_start_starts_clean (s : string) :
  match trim_start s with
  | EmptyString => True
  | String c _ => is_space c = false
  end.
Proof.
  induction s as [|c rest IH]; [exact I|].
  cbn [trim_start]. destruct (is_space c) eqn:E; [exact IH|exact E].
Qed.

Lemma trim_end_starts_clean (s : string) :
  match s with
  | EmptyString => True
  | String c _ => is_space c = false
  end ->
  match trim_end s with
  | EmptyString => True
  | String c _ => is_space c = false
  end.
Proof.
  destruct s as [|c rest]; [auto|]. intros Hc. rewrite trim_end_step.
  destruct (trim_end rest); [rewrite Hc|]; exact Hc.
Qed.

Lemma trim_again (s : string) : trim (trim s) = trim s.
Proof.
  unfold trim.
  rewrite (trim_start_clean (trim_end (trim_start s))).
  - apply trim_end_again.
  - apply trim_end_starts_clean, trim_start_starts_clean.
Qed.

Lemma not_empty (s : string) : is_empty s = false -> s <> EmptyString.
Proof.
  intros H ->. discriminate.
Qed.

(** X16. A configuration that the add workflow stores is one the other
    workflows can use: its name, its token and its URL are non-empty
    strings without white space around them, it is in the nested shape, so
    that the menus can display it, and the merger extracts its token and
    its URL. *)
Theorem added_entry_is_usable (w w' : world) (s : add_script)
  (newConfig : json) :
  addConfig s w = (w', Added newConfig) ->
  exists name token url,
    path (Some newConfig) ["name"] = Some (JStr name) /\
    name <> EmptyString /\ trim name = name /\
    token <> EmptyString /\ trim token = token /\
    url <> EmptyString /\ trim url = url /\
    extract_credentials (Some newConfig)
      = Ok (Some (JStr token), Some (JStr url)) /\
    displayable newConfig = true.
Proof.
  intros Hadd.
  destruct (addConfig_added w w' s newConfig Hadd)
    as [configs [name [baseUrl [authToken [Hl [Hn [Hu [Ht [Hnew _]]]]]]]]].
  destruct (validate_name_accepted w configs name Hl Hn) as [Hname _].
  unfold validate_baseUrl in Hu. unfold validate_authToken in Ht.
  destruct (is_empty (trim baseUrl)) eqn:Eu; [discriminate|].
  destruct (is_empty (trim authToken)) eqn:Et; [discriminate|].
  exists (trim name), (trim authToken), (trim baseUrl). subst newConfig.
  repeat split; auto using not_empty, trim_again.
Qed.

Lemma added_entry_is_usable_witness :
  addConfig add_third (sample_world [configA; configB] settingsA WriteOk)
    = (sample_world [configA; configB; configC] settingsA WriteOk,
       Added configC) /\
  exists name token url,
    path (Some configC) ["name"] = Some (JStr name) /\
    name <> EmptyString /\ trim name = name /\
    token <> EmptyString /\ trim token = token /\
    url <> EmptyString /\ trim url = url /\
    extract_credentials (Some configC)
      = Ok (Some (JStr token), Some (JStr url)) /\
    displayable configC = true.
Proof.
  split; [reflexivity|].
  apply (added_entry_is_usable
           (sample_world [configA; configB] settingsA WriteOk)
           (sample_world [configA; configB; configC] settingsA WriteOk)
           add_third configC).
  reflexivity.
Defined.

(** X17. When the configuration file is missing, or cannot be parsed, a
    configuration that is added becomes the whole list: the file is written
    anew with that one entry. *)
Theorem add_starts_a_list (w w' : world) (s : add_script) (newConfig : json) :
  holds_json (apiConfigsFile w) = false ->
  addConfig s w = (w', Added newConfig) ->
  apiConfigsFile w' = Stored (JArr [newConfig]).
Proof.
  intros Hfile Hadd.
  destruct (addConfig_added w w' s newConfig Hadd)
    as [configs [name [baseUrl [authToken [Hl [_ [_ [_ [_ Hw']]]]]]]]].
  assert (Hempty : readApiConfigs w = JArr []).
  { unfold readApiConfigs. destruct (apiConfigsFile w); try discriminate;
      reflexivity. }
  rewrite Hempty in Hl. inversion Hl. subst configs.
  now rewrite Hw'.
Qed.

Lemma add_starts_a_list_witness :
  holds_json
    (apiConfigsFile {| apiConfigsFile := Missing; settingsFile := Missing;
                       fault := WriteOk |}) = false /\
  addConfig add_third
    {| apiConfigsFile := Missing; settingsFile := Missing; fault := WriteOk |}
  = ({| apiConfigsFile := Stored (JArr [new_config "A" "https://c" "sk-cccc"
                                          EmptyString]);
        settingsFile := Missing; fault := WriteOk |},
     Added (new_config "A" "https://c" "sk-cccc" EmptyString)) /\
  apiConfigsFile
    {| apiConfigsFile := Stored (JArr [new_config "A" "https://c" "sk-cccc"
                                         EmptyString]);
       settingsFile := Missing; fault := WriteOk |}
  = Stored (JArr [new_config "A" "https://c" "sk-cccc" EmptyString]).
Proof.
  split; [reflexivity|split; [reflexivity|]].
  apply (add_starts_a_list
           {| apiConfigsFile := Missing; settingsFile := Missing;
              fault := WriteOk |} _ add_third
           (new_config "A" "https://c" "sk-cccc" EmptyString));
    reflexivity.
Defined.

Lemma js_some_none (p : json -> result bool) (l : list json) :
  (forall x, In x l -> p x = Ok false) -> js_some p l = Ok false.
Proof.
  induction l as [|x rest IH]; simpl; intros H; auto.
  rewrite (H x) by auto. simpl. apply IH. auto.
Qed.

(** X18. On a list whose entries are JSON values other than [null], the
    name question accepts a line exactly when, once trimmed, it is not
    empty and no entry has it for name, letter for letter. *)
Theorem validate_name_accepts_new_names (w : world) (configs : list json)
  (input : string) :
  readApiConfigs w = JArr configs ->
  (forall c, In c configs -> c <> JNull) ->
  validate_name w input = Ok Accepted <->
  trim input <> EmptyString /\
  forall c, In c configs ->
    path (Some c) ["name"] <> Some (JStr (trim input)).
Proof.
  intros Hl Hnn. split.
  - intros Hv. destruct (validate_name_accepted w configs input Hl Hv)
      as [He Hfresh].
    split; [now apply not_empty|].
    intros c Hc Heq. specialize (Hfresh c Hc). rewrite Heq in Hfresh.
    cbn in Hfresh. now rewrite String.eqb_refl in Hfresh.
  - intros [Hne Hfresh]. unfold validate_name.
    assert (He : is_empty (trim input) = false).
    { unfold is_empty. cbn. destruct (trim input =? EmptyString) eqn:E; auto.
      apply String.eqb_eq in E. contradiction. }
    rewrite He, Hl. cbn [as_array bind].
    rewrite js_some_none; [reflexivity|].
    intros c Hc. rewrite name_matches_eq by auto. f_equal.
    specialize (Hfresh c Hc).
    destruct (path (Some c) ["name"]) as [[]|]; cbn; auto.
    destruct (s =? trim input) eqn:E; auto.
    apply String.eqb_eq in E. subst. congruence.
Qed.

Lemma validate_name_accepts_new_names_witness :
  readApiConfigs (sample_world [configA; configB] settingsA WriteOk)
    = JArr [configA; configB] /\
  (forall c, In c [configA; configB] -> c <> JNull) /\
  (validate_name (sample_world [configA; configB] settingsA WriteOk) " b "
     = Ok Accepted <->
   trim " b " <> EmptyString /\
   forall c, In c [configA; configB] ->
     path (Some c) ["name"] <> Some (JStr (trim " b "))).
Proof.
  assert (Hnn : forall c, In c [configA; configB] -> c <> JNull).
  { intros c [<-|[<-|[]]]; discriminate. }
  split; [reflexivity|split; [exact Hnn|]].
  apply (validate_name_accepts_new_names
           (sample_world [configA; configB] settingsA WriteOk)
           [configA; configB] " b " eq_refl Hnn).
Defined.

(** ** Removing the entry the settings point at *)

Lemma removeConfig_stores (w : world) (pre post : list json) (x : json)
  (cur : jsval) (s : remove_script) :
  prepare_menu w = Ok (pre ++ x :: post, cur) ->
  pick s = List.length pre ->
  confirmRemove s = true ->
  fault w = WriteOk ->
  fst (removeConfig s w) = with_apiConfigs w (Stored (JArr (pre ++ post))).
Proof.
  intros Hmenu Hpick Hconfirm Hw.
  destruct (prepare_menu_shown w _ cur Hmenu) as [Hl [_ Hshown]].
  assert (Hin : In x (pre ++ x :: post)) by (apply in_or_app; simpl; auto).
  destruct (Hshown x Hin) as [[b Hb] [name Hname]].
  unfold removeConfig. rewrite Hl.
  destruct (list_is_not_empty (pre ++ x :: post)) as [len [Hlen Hnz]].
  { intros H. apply app_eq_nil in H. destruct H. discriminate. }
  rewrite Hlen, Hnz, Hmenu.
  unfold remove_handler. rewrite Hpick.
  rewrite nth_error_app2 by lia. rewrite Nat.sub_diag. cbn [nth_error].
  rewrite Hb, Hconfirm.
  unfold saveApiConfigs, writeFileSync. rewrite Hw, Hname.
  cbn [fst]. now rewrite splice1_middle.
Qed.

(** X19. Removing an entry, no other entry of the list matching the
    settings by name or by value, leaves no active configuration: the
    settings file still names the removed entry, and the resolver returns
    [null] from then on. *)
Theorem remove_last_match_then_null (w : world) (pre post : list json)
  (x : json) (cur : jsval) (s : remove_script) :
  prepare_menu w = Ok (pre ++ x :: post, cur) ->
  pick s = List.length pre ->
  confirmRemove s = true ->
  fault w = WriteOk ->
  (forall d, In d (pre ++ post) ->
     name_equal (readSettings w) d = false /\
     value_equal (readSettings w) d = false) ->
  settingsFile (fst (removeConfig s w)) = settingsFile w /\
  getCurrentConfig (fst (removeConfig s w)) = Ok null.
Proof.
  intros Hmenu Hpick Hconfirm Hw Hno.
  rewrite (removeConfig_stores w pre post x cur s Hmenu Hpick Hconfirm Hw).
  split; [reflexivity|].
  destruct (prepare_menu_shown w _ cur Hmenu) as [_ [_ Hshown]].
  apply (resolver_no_match _ (pre ++ post)); [reflexivity|].
  intros d Hd. split; [|exact (Hno d Hd)].
  assert (Hin : In d (pre ++ x :: post)).
  { apply in_app_or in Hd. apply in_or_app. simpl. tauto. }
  destruct (Hshown d Hin) as [_ [name Hname]].
  intros ->. discriminate.
Qed.

Lemma remove_last_match_then_null_witness :
  prepare_menu (sample_world [configA; configB] settingsA WriteOk)
    = Ok ([] ++ configA :: [configB], Some configA) /\
  pick {| pick := 0; confirmRemove := true |} = List.length (@nil json) /\
  fault (sample_world [configA; configB] settingsA WriteOk) = WriteOk /\
  settingsFile
    (fst (removeConfig {| pick := 0; confirmRemove := true |}
            (sample_world [configA; configB] settingsA WriteOk)))
    = Stored (JObj settingsA) /\
  getCurrentConfig
    (fst (removeConfig {| pick := 0; confirmRemove := true |}
            (sample_world [configA; configB] settingsA WriteOk)))
    = Ok null.
Proof.
  repeat (split; [reflexivity|]).
  apply (remove_last_match_then_null
           (sample_world [configA; configB] settingsA WriteOk)
           [] [configB] configA (Some configA)
           {| pick := 0; confirmRemove := true |});
    try reflexivity.
  intros d [<-|[]]. split; reflexivity.
Defined.

(** ** The lines of the menu *)

Lemma is_active_eq (cur : jsval) (c : json) :
  c <> JNull ->
  is_active cur (Some c) =
  Ok (truthy cur && strict_eq (path (Some c) ["name"]) (path cur ["name"])).
Proof.
  intros Hc. unfold is_active. destruct (truthy cur) eqn:Ht; [|reflexivity].
  rewrite get_prop_json by assumption. cbn [bind].
  now rewrite (get_prop_truthy cur "name" Ht).
Qed.

(** X20. The menu of the list and remove workflows offers every entry of
    the list once, in the order of the list, under its index (counted from
    the index of the first line), and marks as current the entries that
    carry the name of the configuration the resolver returned, and no
    other. *)
Theorem menu_offers_every_entry (cur : jsval) (l : list json) :
  forall (index : nat) (lines : list choice),
    menu_choices cur index l = Ok lines ->
    map value lines = seq index (List.length l) /\
    map current lines =
    map (fun c => truthy cur &&
                  strict_eq (path (Some c) ["name"]) (path cur ["name"])) l.
Proof.
  induction l as [|c rest IH]; intros index lines H.
  - inversion H. split; reflexivity.
  - cbn [menu_choices] in H.
    destruct (menu_line cur index c) as [line|e] eqn:Hline;
      cbn [bind] in H; [|discriminate].
    destruct (menu_choices cur (S index) rest) as [more|e] eqn:Hmore;
      cbn [bind] in H; [|discriminate].
    inversion H. subst lines. destruct (IH _ _ Hmore) as [Hv Hc].
    assert (Hnn : c <> JNull).
    { destruct (menu_line_shown cur index c line Hline) as [_ [name Hn]].
      intros ->. discriminate. }
    assert (Hvalue : value line = index).
    { unfold menu_line in Hline.
      repeat match type of Hline with
             | bind ?x _ = Ok _ =>
                 destruct x; cbn [bind] in Hline; [|discriminate]
             end.
      now inversion Hline. }
    destruct (menu_line_shown cur index c line Hline) as [Hact _].
    rewrite is_active_eq in Hact by assumption. injection Hact as Hmark.
    cbn [map List.length seq]. rewrite Hv, Hc, Hvalue, <- Hmark.
    split; reflexivity.
Qed.

Lemma menu_offers_every_entry_witness :
  menu_choices (Some configA) 0 [configA; configB]
    = Ok [{| value := 0; current := true |};
          {| value := 1; current := false |}] /\
  map value [{| value := 0; current := true |};
             {| value := 1; current := false |}]
    = seq 0 (List.length [configA; configB]) /\
  map current [{| value := 0; current := true |};
               {| value := 1; current := false |}]
    = map (fun c => truthy (Some configA) &&
                    strict_eq (path (Some c) ["name"])
                      (path (Some configA) ["name"]))
        [configA; configB].
Proof.
  split; [reflexivity|].
  apply (menu_offers_every_entry (Some configA) [configA; configB] 0).
  reflexivity.
Defined.

(** ** A write of the list that fails *)

(** X21. When the list cannot be written after an entry was removed and
    confirmed, the workflow is fatal, with exit code 1.  The file is
    written in place: it is as it was when the failure comes before the
    file is opened; when it comes after, the file is left truncated, and
    the next run reads it as an empty list. *)
Theorem failed_remove_is_fatal (w : world) (l : list json) (cur : jsval)
  (s : remove_script) :
  prepare_menu w = Ok (l, cur) ->
  pick s < List.length l ->
  confirmRemove s = true ->
  fault w <> WriteOk ->
  snd (removeConfig s w) = Fatal 1 WriteFailed /\
  (fault w = OpenFails -> fst (removeConfig s w) = w) /\
  (fault w = WriteFailsAfterOpen ->
   apiConfigsFile (fst (removeConfig s w)) = Garbled /\
   readApiConfigs (fst (removeConfig s w)) = JArr []).
Proof.
  intros Hmenu Hpick Hconfirm Hw.
  destruct (prepare_menu_shown w l cur Hmenu) as [Hl [_ Hshown]].
  destruct (nth_error l (pick s)) as [x|] eqn:Hx;
    [|apply nth_error_None in Hx; lia].
  destruct (Hshown x (nth_error_In l _ Hx)) as [[b Hb] _].
  unfold removeConfig. rewrite Hl.
  destruct (list_is_not_empty l) as [len [Hlen Hnz]].
  { intros ->. simpl in Hpick. lia. }
  rewrite Hlen, Hnz, Hmenu. unfold remove_handler.
  rewrite Hx, Hb, Hconfirm. unfold saveApiConfigs, writeFileSync.
  destruct w as [api settings fl]. cbn [fault] in *.
  destruct fl; [congruence| |]; cbn; repeat split; intros; congruence.
Qed.

Lemma failed_remove_is_fatal_witness :
  prepare_menu (sample_world [configA; configB] settingsA WriteFailsAfterOpen)
    = Ok ([configA; configB], Some configA) /\
  pick remove_second < List.length [configA; configB] /\
  confirmRemove remove_second = true /\
  fault (sample_world [configA; configB] settingsA WriteFailsAfterOpen)
    <> WriteOk /\
  snd (removeConfig remove_second
         (sample_world [configA; configB] settingsA WriteFailsAfterOpen))
    = Fatal 1 WriteFailed /\
  readApiConfigs
    (fst (removeConfig remove_second
            (sample_world [configA; configB] settingsA WriteFailsAfterOpen)))
    = JArr [].
Proof.
  split; [reflexivity|split; [simpl; lia|split; [reflexivity|]]].
  split; [discriminate|].
  destruct (failed_remove_is_fatal
              (sample_world [configA; configB] settingsA WriteFailsAfterOpen)
              [configA; configB] (Some configA) remove_second)
    as [Hfatal [_ Hlost]]; try reflexivity; try discriminate.
  - simpl. lia.
  - split; [exact Hfatal|]. now destruct (Hlost eq_refl).
Defined.
